(** * BooleanSet (src/utils/BooleanSet.js): a shallow embedding

    The class is embedded over a small model of the JavaScript store:
    values are primitives or references, objects live in a heap and are
    shared by reference, and every method is a computation in a
    state-and-exception monad over that heap.  Each definition follows the
    method of the same name statement by statement. *)

From Stdlib Require Import ZArith QArith_base.
From stdpp Require Import base option gmap strings list fin_maps.

Local Open Scope Z_scope.

(** ** Values *)

(** Numbers: the finite ones are rationals (nothing in the class does
    arithmetic, only comparisons with zero and integrality checks), plus the
    three special values of the Number type. *)
Inductive number : Type :=
  | Finite (q : Q)
  | PosInfinity
  | NegInfinity
  | NaN.

Definition loc : Type := nat.

Inductive value : Type :=
  | undefined
  | null
  | JBool (b : bool)
  | JNum (n : number)
  | JStr (s : string)
  | JRef (l : loc).

Definition num_of_Z (z : Z) : value := JNum (Finite (inject_Z z)).

(** ** Objects and the heap *)

(** What an object is besides its properties: a plain object, an instance of
    the class, or an array with its elements. *)
Inductive kind : Type :=
  | Plain
  | BooleanSetInstance
  | Array (elems : list value).

Record object : Type := Object { kind_of : kind; props : gmap string value }.

Abbreviation heap := (gmap loc object).

(** ** Exceptions and the monad *)

Inductive error : Type :=
  | AssertionError            (* thrown by assert(...) *)
  | ReferenceError (ident : string)   (* an identifier with no binding *)
  | TypeError                 (* property access on undefined or null, ... *)
  | Error (msg : string).     (* throw new Error(msg) *)

Inductive result (A : Type) : Type :=
  | Ok (a : A)
  | Throw (e : error).
Arguments Ok {A} a.
Arguments Throw {A} e.

Definition M (A : Type) : Type := heap → result A * heap.

#[export] Instance M_ret : MRet M := λ A a h, (Ok a, h).
#[export] Instance M_bind : MBind M := λ A B f m h,
  match m h with
  | (Ok a, h') => f a h'
  | (Throw e, h') => (Throw e, h')
  end.

Definition throw {A} (e : error) : M A := λ h, (Throw e, h).
Definition reads {A} (f : heap → A) : M A := λ h, (Ok (f h), h).

(** ** Primitive operations of the language *)

Definition truthy (v : value) : bool :=
  match v with
  | undefined | null => false
  | JBool b => b
  | JNum (Finite q) => negb (Qnum q =? 0)
  | JNum NaN => false
  | JNum _ => true
  | JStr s => negb (String.eqb s "")
  | JRef _ => true
  end.

(** [typeof v === "boolean"] *)
Definition is_boolean (v : value) : bool :=
  match v with JBool _ => true | _ => false end.

(** [v === undefined || v === null] *)
Definition is_nullish (v : value) : bool :=
  match v with undefined | null => true | _ => false end.

(** [!v] *)
Definition js_not (v : value) : value := JBool (negb (truthy v)).

(** [v === null] and [v === undefined] *)
Definition is_null (v : value) : bool :=
  match v with null => true | _ => false end.
Definition is_undefined (v : value) : bool :=
  match v with undefined => true | _ => false end.

(** [x >= 0] once both sides are numbers: false on NaN. *)
Definition num_ge_zero (n : number) : bool :=
  match n with
  | Finite q => Qle_bool (inject_Z 0) q
  | PosInfinity => true
  | NegInfinity | NaN => false
  end.

(** [assert(cond)] *)
Definition assert (cond : bool) : M unit :=
  if cond then mret () else throw AssertionError.

(** Reading an identifier that has no binding in the module: the only
    bindings of BooleanSet.js are [assert], [GenUtils] and [BooleanSet]. *)
Definition unbound_identifier (ident : string) : M value :=
  throw (ReferenceError ident).

(** Calling a value as a function: the heap holds data only, so no value of
    the model is callable. *)
Definition call_value (f : value) (args : list value) : M value :=
  throw TypeError.

(** [v.k]: the names the class reads ([state], [ranges], [inverted],
    [flipped], [start], [end]) are no built-in property of arrays or of
    primitives, so only the own properties matter. *)
Definition get_prop (v : value) (k : string) : M value := λ h,
  match v with
  | undefined | null => (Throw TypeError, h)
  | JRef l =>
      match h !! l with
      | Some o => (Ok (default undefined (props o !! k)), h)
      | None => (Throw TypeError, h)
      end
  | _ => (Ok undefined, h)
  end.

(** [v.k = x] in strict mode (class bodies are strict). *)
Definition set_prop (v : value) (k : string) (x : value) : M unit := λ h,
  match v with
  | JRef l =>
      match h !! l with
      | Some o => (Ok (), <[l := Object (kind_of o) (<[k := x]> (props o))]> h)
      | None => (Throw TypeError, h)
      end
  | _ => (Throw TypeError, h)
  end.

(** [delete v.k] *)
Definition delete_prop (v : value) (k : string) : M unit := λ h,
  match v with
  | undefined | null => (Throw TypeError, h)
  | JRef l =>
      match h !! l with
      | Some o => (Ok (), <[l := Object (kind_of o) (delete k (props o))]> h)
      | None => (Throw TypeError, h)
      end
  | _ => (Ok (), h)
  end.

(** [v.length = 0]: truncates an array, is an ordinary property write on any
    other object. *)
Definition set_length_zero (v : value) : M unit := λ h,
  match v with
  | JRef l =>
      match h !! l with
      | Some (Object (Array _) ps) => (Ok (), <[l := Object (Array []) ps]> h)
      | Some (Object c ps) =>
          (Ok (), <[l := Object c (<["length" := num_of_Z 0]> ps)]> h)
      | None => (Throw TypeError, h)
      end
  | _ => (Throw TypeError, h)
  end.

(** Allocation: [{}], [[]] and [new]. *)
Definition alloc (o : object) : M value := λ h,
  let l := fresh (dom h) in (Ok (JRef l), <[l := o]> h).

(** [v instanceof BooleanSet], [v instanceof Object], [Array.isArray(v)] *)
Definition instanceof_BooleanSet (h : heap) (v : value) : bool :=
  match v with
  | JRef l =>
      match h !! l with
      | Some (Object BooleanSetInstance _) => true
      | _ => false
      end
  | _ => false
  end.

Definition instanceof_Object (h : heap) (v : value) : bool :=
  match v with
  | JRef l => bool_decide (is_Some (h !! l))
  | _ => false
  end.

Definition isArray (h : heap) (v : value) : bool :=
  match v with
  | JRef l =>
      match h !! l with
      | Some (Object (Array _) _) => true
      | _ => false
      end
  | _ => false
  end.

(** The values a [for (let x of v)] loop visits; anything but an array or a
    string is not iterable. *)
Definition iterate (v : value) : M (list value) := λ h,
  match v with
  | JRef l =>
      match h !! l with
      | Some (Object (Array elems) _) => (Ok elems, h)
      | _ => (Throw TypeError, h)
      end
  | JStr s => (Ok ((λ c, JStr (String c EmptyString)) <$> String.list_ascii_of_string s), h)
  | _ => (Throw TypeError, h)
  end.

(** The body of a [for ... of] loop works on the local variables it assigns
    (threaded as an accumulator) and answers whether it executed [break]. *)
Inductive flow : Type := Continue | Break.

Fixpoint for_of {S : Type} (xs : list value) (acc : S)
    (body : S → value → M (S * flow)) : M S :=
  match xs with
  | [] => mret acc
  | x :: xs' =>
      r ← body acc x;
      match r with
      | (acc', Break) => mret acc'
      | (acc', Continue) => for_of xs' acc' body
      end
  end.

(** A parameter with a default value: [f(x = d)]. *)
Definition default_arg (x d : value) : value :=
  if is_undefined x then d else x.

(** ** GenUtils: the two helpers the class calls *)

Module GenUtils.

(** Modelled from the spec: GenUtils.isInt is not part of the sources at
    hand; the spec calls an index invalid when it is "negative or
    non-integer", so [isInt] holds exactly of the numbers with an integer
    value. *)
Definition isInt (v : value) : bool :=
  match v with
  | JNum (Finite q) => Qnum q mod Zpos (Qden q) =? 0
  | _ => false
  end.

(** A structural copy of everything reachable from [v] within [fuel]
    references: objects and arrays are allocated anew, primitives are
    kept.  The copy of an instance is a plain object. *)
Fixpoint deep_copy (fuel : nat) (v : value) : M value :=
  match fuel with
  | O => mret v
  | S n =>
      match v with
      | JRef l =>
          o ← reads (λ h : heap, h !! l);
          match o with
          | None => mret v
          | Some (Object k ps) =>
              k' ← match k with
                   | Array elems =>
                       es ← mapM (deep_copy n) elems; mret (Array es)
                   | _ => mret Plain
                   end;
              kvs ← mapM (λ kv : string * value,
                            x ← deep_copy n kv.2; mret (kv.1, x))
                         (map_to_list ps);
              alloc (Object k' (list_to_map kvs))
          end
      | _ => mret v
      end
  end.

(** Modelled from the spec: GenUtils.copyProperties is not part of the
    sources at hand; the spec has a set "copied by deep-copying the range
    collection and the flag", with "no shared state with the original".
    The fuel exceeds the length of every chain of references of an acyclic
    heap, so the whole structure under [v] is copied. *)
Definition copyProperties (v : value) : M value :=
  λ h, deep_copy (S (size h)) v h.

End GenUtils.

(** Conversion to a number of a string and of an object are built into the
    language and left abstract: the class only compares values with zero,
    and every statement below holds whatever these two return. *)
Class Builtins : Type := {
  StringToNumber : string → number;
  ObjectToNumber : heap → loc → number
}.

(** ** The class *)

Module BooleanSet.
Section Methods.

Context `{Builtins}.

Definition ToNumber (h : heap) (v : value) : number :=
  match v with
  | undefined => NaN
  | null => Finite (inject_Z 0)
  | JBool b => Finite (inject_Z (if b then 1 else 0))
  | JNum n => n
  | JStr s => StringToNumber s
  | JRef l => ObjectToNumber h l
  end.

(** [v >= 0] *)
Definition ge_zero (v : value) : M bool :=
  reads (λ h, num_ge_zero (ToNumber h v)).

Definition num_le (a b : number) : bool :=
  match a, b with
  | NaN, _ | _, NaN => false
  | NegInfinity, _ | _, PosInfinity => true
  | Finite p, Finite q => Qle_bool p q
  | _, _ => false
  end.

(** [a <= b] and [a >= b] on operands that are not both strings. *)
Definition js_le (a b : value) : M bool :=
  reads (λ h, num_le (ToNumber h a) (ToNumber h b)).
Definition js_ge (a b : value) : M bool := js_le b a.

(** [GenUtils.isInt(idx) && idx >= 0] *)
Definition index_ok (idx : value) : M bool :=
  if GenUtils.isInt idx then ge_zero idx else mret false.

Definition not_implemented {A} : M A := throw (Error "Not implemented").

(** [getState()] *)
Definition getState (this : value) : M value :=
  get_prop this "state".

(** [set(val, idx)] *)
Definition set (this val idx : value) : M value :=
  assert (is_boolean val);;
  if is_nullish idx then
    st ← get_prop this "state";
    delete_prop st "inverted";;
    st ← get_prop this "state";
    rs ← get_prop st "ranges";
    set_length_zero rs;;
    (if truthy val then set_prop this "inverted" (JBool true) else mret ());;
    mret undefined
  else
    ok ← index_ok idx;
    assert ok;;
    not_implemented.

(** [clear()] *)
Definition clear (this : value) : M value :=
  set this (JBool false) undefined.

(** [setRange(val, start, end)] *)
Definition setRange (this val start end_ : value) : M value :=
  not_implemented.

(** [flip(idx)] *)
Definition flip (this idx : value) : M value :=
  not_implemented.

(** [flipRange(start, end)] *)
Definition flipRange (this start end_ : value) : M value :=
  not_implemented.

(** [get(idx)] *)
Definition get (this idx : value) : M value :=
  ok ← index_ok idx;
  assert ok;;
  st ← get_prop this "state";
  rs ← get_prop st "ranges";
  xs ← iterate rs;
  inRange ← for_of xs false (λ inRange range,
    lo ← get_prop range "start";
    index ← unbound_identifier "index";
    c ← js_le lo index;
    if c : bool then
      hi ← get_prop range "end";
      index ← unbound_identifier "index";
      c ← js_ge hi index;
      if c : bool then mret (true, Break) else mret (inRange, Continue)
    else mret (inRange, Continue));
  st ← get_prop this "state";
  inv ← get_prop st "inverted";
  mret (if inRange : bool then js_not inv else inv).

(** [getFirst(val, start = 0, end)] *)
Definition getFirst (this val start end_ : value) : M value :=
  let start := default_arg start (num_of_Z 0) in
  not_implemented.

(** [getLast(val, start, end)] *)
Definition getLast (this val start end_ : value) : M value :=
  not_implemented.

(** [allSet] and [anySet] with the method they reach through
    [this.getFirst] left open. *)
Definition allSet_via (getFirst : value → value → value → value → M value)
    (this val start end_ : value) : M value :=
  assert (is_boolean val);;
  r ← getFirst this (js_not val) start end_;
  mret (JBool (is_null r)).

Definition anySet_via (getFirst : value → value → value → value → M value)
    (this val start end_ : value) : M value :=
  let start := default_arg start (num_of_Z 0) in
  assert (is_boolean val);;
  r ← getFirst this val start end_;
  mret (JBool (negb (is_null r))).

(** [allSet(val, start, end)] *)
Definition allSet : value → value → value → value → M value :=
  allSet_via getFirst.

(** [anySet(val, start = 0, end)] *)
Definition anySet : value → value → value → value → M value :=
  anySet_via getFirst.

(** [length()]: [getLast] is read as a free identifier, not as a method of
    [this]. *)
Definition length (this : value) : M value :=
  flipped ← get_prop this "flipped";
  if truthy flipped then
    getLast ← unbound_identifier "getLast";
    call_value getLast [JBool false]
  else
    getLast ← unbound_identifier "getLast";
    call_value getLast [JBool true].

(** [toArray(start = 0, end = this.length())] *)
Definition toArray (this start end_ : value) : M value :=
  let start := default_arg start (num_of_Z 0) in
  end_ ← (if is_undefined end_ then length this else mret end_);
  not_implemented.

(** [_validateState(state)] *)
Definition _validateState (state : value) : M unit :=
  assert (truthy state);;
  isObj ← reads (λ h, instanceof_Object h state);
  assert isObj;;
  inv ← get_prop state "inverted";
  assert (is_boolean inv);;
  rs ← get_prop state "ranges";
  assert (negb (is_undefined rs));;
  rs ← get_prop state "ranges";
  isArr ← reads (λ h, isArray h rs);
  assert isArr;;
  rs ← get_prop state "ranges";
  xs ← iterate rs;
  for_of xs () (λ _ range,
    lo ← get_prop range "start";
    c ← ge_zero lo;
    assert c;;
    hi ← get_prop range "end";
    c ← ge_zero hi;
    assert c;;
    mret ((), Continue)).

(** [_setState(state)] *)
Definition _setState (this state : value) : M value :=
  _validateState state;;
  delete_prop this "state";;
  set_prop this "state" state;;
  mret this.

(** [constructor(stateOrObj)] *)
Definition constructor (this stateOrObj : value) : M unit :=
  isSet ← reads (λ h, instanceof_BooleanSet h stateOrObj);
  if isSet : bool then
    st ← getState stateOrObj;
    cp ← GenUtils.copyProperties st;
    _setState this cp;;
    mret ()
  else if truthy stateOrObj then
    state ← unbound_identifier "state";
    _setState this state;;
    mret ()
  else
    o ← alloc (Object Plain ∅);
    set_prop this "state" o;;
    st ← get_prop this "state";
    a ← alloc (Object (Array []) ∅);
    set_prop st "ranges" a.

(** [new BooleanSet(stateOrObj)] *)
Definition new (stateOrObj : value) : M value :=
  this ← alloc (Object BooleanSetInstance ∅);
  constructor this stateOrObj;;
  mret this.

(** [copy()] *)
Definition copy (this : value) : M value :=
  new this.

End Methods.
End BooleanSet.

(** ** The public operations as data *)

(** A call of a public method with its arguments as the caller wrote them;
    an argument left out is [undefined]. *)
Inductive call : Type :=
  | CallGetState
  | CallClear
  | CallCopy
  | CallSet (val idx : value)
  | CallSetRange (val start end_ : value)
  | CallFlip (idx : value)
  | CallFlipRange (start end_ : value)
  | CallGet (idx : value)
  | CallGetFirst (val start end_ : value)
  | CallGetLast (val start end_ : value)
  | CallAllSet (val start end_ : value)
  | CallAnySet (val start end_ : value)
  | CallToArray (start end_ : value)
  | CallLength.

Definition invoke `{Builtins} (this : value) (c : call) : M value :=
  match c with
  | CallGetState => BooleanSet.getState this
  | CallClear => BooleanSet.clear this
  | CallCopy => BooleanSet.copy this
  | CallSet val idx => BooleanSet.set this val idx
  | CallSetRange val start end_ => BooleanSet.setRange this val start end_
  | CallFlip idx => BooleanSet.flip this idx
  | CallFlipRange start end_ => BooleanSet.flipRange this start end_
  | CallGet idx => BooleanSet.get this idx
  | CallGetFirst val start end_ => BooleanSet.getFirst this val start end_
  | CallGetLast val start end_ => BooleanSet.getLast this val start end_
  | CallAllSet val start end_ => BooleanSet.allSet this val start end_
  | CallAnySet val start end_ => BooleanSet.anySet this val start end_
  | CallToArray start end_ => BooleanSet.toArray this start end_
  | CallLength => BooleanSet.length this
  end.

(** A caller that goes on after a call whether it returned or threw: the
    heap the calls leave behind. *)
Definition run_calls `{Builtins} (this : value) (cs : list call) (h : heap) : heap :=
  foldl (λ h c, (invoke this c h).2) h cs.

(** An index argument that was supplied and is negative or not an integer. *)
Definition bad_index (v : value) : bool :=
  negb (is_nullish v) &&
  negb (match v with
        | JNum n => GenUtils.isInt v && num_ge_zero n
        | _ => false
        end).

(** A value argument that is not a boolean. *)
Definition bad_boolean (v : value) : bool := negb (is_boolean v).

(** The call has an invalid argument. *)
Definition invalid_argument (c : call) : bool :=
  match c with
  | CallGetState | CallClear | CallCopy | CallLength => false
  | CallSet val idx => bad_boolean val || bad_index idx
  | CallFlip idx | CallGet idx => bad_index idx
  | CallFlipRange start end_ | CallToArray start end_ =>
      bad_index start || bad_index end_
  | CallSetRange val start end_ | CallGetFirst val start end_
  | CallGetLast val start end_ | CallAllSet val start end_
  | CallAnySet val start end_ =>
      bad_boolean val || bad_index start || bad_index end_
  end.

(** The index [n], for a natural number [n]. *)
Definition index (n : nat) : value := num_of_Z (Z.of_nat n).

(** ** Reading a set off the heap *)

(** The values [this.state.ranges] iterates over, when it is iterable. *)
Definition stored_ranges (h : heap) (this : value) : option (list value) :=
  match (st ← get_prop this "state"; rs ← get_prop st "ranges"; iterate rs) h with
  | (Ok xs, _) => Some xs
  | (Throw _, _) => None
  end.

(** The raw [this.state.inverted]. *)
Definition stored_inverted (h : heap) (this : value) : option value :=
  match (st ← get_prop this "state"; get_prop st "inverted") h with
  | (Ok v, _) => Some v
  | (Throw _, _) => None
  end.

(** ** Well-formed heaps *)

(** A reference is live when it points to an object of the heap. *)
Definition live (h : heap) (v : value) : Prop :=
  match v with
  | JRef l => is_Some (h !! l)
  | _ => True
  end.

#[export] Instance live_dec h v : Decision (live h v).
Proof. destruct v; simpl; apply _. Defined.

Definition object_closed (h : heap) (o : object) : Prop :=
  map_Forall (λ _ v, live h v) (props o) ∧
  match kind_of o with
  | Array es => Forall (live h) es
  | _ => True
  end.

#[export] Instance object_closed_dec h o : Decision (object_closed h o).
Proof. unfold object_closed. destruct (kind_of o); apply _. Defined.

(** Every reference stored in the heap is live, as in any store the
    language can build. *)
Definition closed (h : heap) : Prop :=
  map_Forall (λ _ o, object_closed h o) h.

#[export] Instance closed_dec h : Decision (closed h).
Proof. unfold closed. apply _. Defined.

(** ** The range collection of the specification *)

(** An interval [[start, end]] of the specification; [None] is an unbounded
    end. *)
Definition interval : Type := Z * option Z.

(** Well-formed on its own: [0 <= start <= end], or unbounded. *)
Definition interval_ok (r : interval) : bool :=
  match r with
  | (s, Some e) => (0 <=? s) && (s <=? e)
  | (s, None) => 0 <=? s
  end.

(** The RangeCollection invariant as the specification words it: increasing
    by start, disjoint, not adjacent ([end1 + 1 < start2] for consecutive
    ranges), at most one unbounded range and only in last position. *)
Fixpoint spec_range_collection_ok (rs : list interval) : bool :=
  match rs with
  | [] => true
  | r :: rest =>
      interval_ok r &&
      match rest with
      | [] => true
      | (s2, _) :: _ =>
          match r.2 with
          | Some e1 => e1 + 1 <? s2
          | None => false
          end
      end &&
      spec_range_collection_ok rest
  end.

(** The bound a stored number stands for. *)
Definition bound_of (v : value) : option (option Z) :=
  match v with
  | JNum (Finite q) =>
      if GenUtils.isInt v then Some (Some (Qnum q / Zpos (Qden q))) else None
  | JNum PosInfinity => Some None
  | _ => None
  end.

(** The interval a stored range object stands for. *)
Definition interval_of (h : heap) (range : value) : option interval :=
  match (get_prop range "start" h).1, (get_prop range "end" h).1 with
  | Ok (JNum (Finite q) as lo), Ok hi =>
      match bound_of lo, bound_of hi with
      | Some (Some s), Some e => Some (s, e)
      | _, _ => None
      end
  | _, _ => None
  end.

(** The intervals of the range collection of a state object. *)
Definition intervals_of (h : heap) (state : value) : option (list interval) :=
  match (rs ← get_prop state "ranges"; iterate rs) h with
  | (Ok xs, _) => mapM (interval_of h) xs
  | (Throw _, _) => None
  end.

(** ** Predicates used in the statements *)

(** The instance at [t] has the state object at [s], whose range collection
    is the array at [a]. *)
Definition set_at (h : heap) (t s a : loc) : Prop :=
  t ≠ s ∧
  (∃ pt, h !! t = Some (Object BooleanSetInstance pt) ∧
         pt !! "state" = Some (JRef s)) ∧
  (∃ ks ps, h !! s = Some (Object ks ps) ∧ ps !! "ranges" = Some (JRef a)) ∧
  (∃ xs pa, h !! a = Some (Object (Array xs) pa)).

(** A value that is no reference into [h]. *)
Definition outside (h : heap) (v : value) : Prop :=
  ∀ l, v = JRef l → h !! l = None.

(** What [_validateState] asks of an element of the range collection: its
    [start] and its [end] can be read and both are [>= 0]. *)
Definition range_bounds_ok `{Builtins} (h : heap) (range : value) : Prop :=
  ∃ lo hi,
    get_prop range "start" h = (Ok lo, h) ∧
    num_ge_zero (BooleanSet.ToNumber h lo) = true ∧
    get_prop range "end" h = (Ok hi, h) ∧
    num_ge_zero (BooleanSet.ToNumber h hi) = true.

(** What [_validateState] asks of a state: an object whose [inverted] is a
    boolean and whose [ranges] is an array of such elements. *)
Definition state_accepted `{Builtins} (h : heap) (state : value) : Prop :=
  ∃ s o b a xs pa,
    state = JRef s ∧ h !! s = Some o ∧
    props o !! "inverted" = Some (JBool b) ∧
    props o !! "ranges" = Some (JRef a) ∧
    h !! a = Some (Object (Array xs) pa) ∧
    Forall (range_bounds_ok h) xs.

(** ** Concrete heaps for the examples *)

(** An instance of the built-in conversions to run the examples with; they
    compare numbers only, so its choices play no role. *)
Definition plain_builtins : Builtins :=
  {| StringToNumber := λ _, NaN; ObjectToNumber := λ _ _, NaN |}.

Definition range_object (lo hi : value) : object :=
  Object Plain {["start" := lo; "end" := hi]}.

(** The set at location 0, with [inverted] true and no range. *)
Definition inverted_heap : heap :=
  {[ 0%nat := Object BooleanSetInstance {["state" := JRef 1%nat]};
     1%nat := Object Plain {["inverted" := JBool true; "ranges" := JRef 2%nat]};
     2%nat := Object (Array []) ∅ ]}.

(** The set at location 0, with the one range [[5, 10]]. *)
Definition one_range_heap : heap :=
  {[ 0%nat := Object BooleanSetInstance {["state" := JRef 1%nat]};
     1%nat := Object Plain {["inverted" := JBool false; "ranges" := JRef 2%nat]};
     2%nat := Object (Array [JRef 3%nat]) ∅;
     3%nat := range_object (num_of_Z 5) (num_of_Z 10) ]}.

(** A state object at location 0 whose ranges [[0, 5]] and [[3, 8]]
    overlap. *)
Definition overlap_heap : heap :=
  {[ 0%nat := Object Plain {["inverted" := JBool false; "ranges" := JRef 1%nat]};
     1%nat := Object (Array [JRef 2%nat; JRef 3%nat]) ∅;
     2%nat := range_object (num_of_Z 0) (num_of_Z 5);
     3%nat := range_object (num_of_Z 3) (num_of_Z 8) ]}.

(** A state object at location 0 whose ranges [[7, ∞)], [[7, ∞)] and
    [[2, 6]] are neither sorted nor disjoint, with two unbounded ones, none
    of them last. *)
Definition unbounded_heap : heap :=
  {[ 0%nat := Object Plain {["inverted" := JBool true; "ranges" := JRef 1%nat]};
     1%nat := Object (Array [JRef 2%nat; JRef 2%nat; JRef 3%nat]) ∅;
     2%nat := range_object (num_of_Z 7) (JNum PosInfinity);
     3%nat := range_object (num_of_Z 2) (num_of_Z 6) ]}.

(** Two instances, at locations 0 and 3, that share the state object of
    [inverted_heap] by reference. *)
Definition shared_heap : heap :=
  <[3%nat := Object BooleanSetInstance {["state" := JRef 1%nat]}]> inverted_heap.

(** ** Predicates for the behaviour of the whole class *)

(** The calls that can write to the heap: [set] with a boolean and no index,
    [clear] and [copy]. *)
Definition writes (c : call) : bool :=
  match c with
  | CallClear | CallCopy => true
  | CallSet val idx => is_boolean val && is_nullish idx
  | _ => false
  end.

(** A set in shape whose state object and range array are distinct objects,
    with no [state.inverted] and an empty range array: what [set(val)]
    leaves behind. *)
Definition cleared_at (h : heap) (t s a : loc) : Prop :=
  set_at h t s a ∧ s ≠ a ∧
  (∃ ks ps, h !! s = Some (Object ks ps) ∧ ps !! "inverted" = None) ∧
  (∃ pa, h !! a = Some (Object (Array []) pa)).

(** What a deep copy makes of a value: a primitive stays what it is, a
    reference becomes a reference. *)
Definition copied_as (x x' : value) : Prop :=
  match x with
  | JRef _ => ∃ l', x' = JRef l'
  | _ => x' = x
  end.

(** The set at location 0 as the constructor builds it: no [inverted] and no
    range. *)
Definition cleared_heap : heap :=
  {[ 0%nat := Object BooleanSetInstance {["state" := JRef 1%nat]};
     1%nat := Object Plain {["ranges" := JRef 2%nat]};
     2%nat := Object (Array []) ∅ ]}.

(** The set at location 0 with a state object that has lost its [ranges]. *)
Definition no_ranges_heap : heap :=
  {[ 0%nat := Object BooleanSetInstance {["state" := JRef 1%nat]};
     1%nat := Object Plain {["inverted" := JBool true]} ]}.

(** * Properties *)

Section Properties.

Context `{Builtins}.

(** ** Running computations *)

Lemma bind_run {A B} (m : M A) (f : A → M B) h :
  (m ≫= f) h =
  match m h with
  | (Ok a, h') => f a h'
  | (Throw e, h') => (Throw e, h')
  end.
Proof. reflexivity. Qed.

(** Reading a property, iterating, and the pure tests leave the heap as it
    is. *)
Lemma get_prop_heap v k h : (get_prop v k h).2 = h.
Proof.
  unfold get_prop. destruct v as [| | | | |l]; try reflexivity.
  by destruct (h !! l).
Qed.

Lemma iterate_heap v h : (iterate v h).2 = h.
Proof.
  unfold iterate. destruct v as [| | | | |l]; try reflexivity.
  destruct (h !! l) as [[[] ?]|]; reflexivity.
Qed.

Lemma get_prop_run v k h :
  get_prop v k h = ((get_prop v k h).1, h).
Proof. rewrite <- (get_prop_heap v k h) at 3. by destruct (get_prop v k h). Qed.

Lemma iterate_run v h : iterate v h = ((iterate v h).1, h).
Proof. rewrite <- (iterate_heap v h) at 3. by destruct (iterate v h). Qed.

Ltac run_get_prop v k h r E :=
  let h' := fresh "h" in
  let Hh := fresh "Hh" in
  destruct (get_prop v k h) as [r h'] eqn:E;
  pose proof (get_prop_heap v k h) as Hh;
  rewrite E in Hh; simpl in Hh; subst h'.

Ltac run_iterate v h r E :=
  let h' := fresh "h" in
  let Hh := fresh "Hh" in
  destruct (iterate v h) as [r h'] eqn:E;
  pose proof (iterate_heap v h) as Hh;
  rewrite E in Hh; simpl in Hh; subst h'.

Lemma bind_ok {A B} {m : M A} {f : A → M B} {h a h'} :
  m h = (Ok a, h') → (m ≫= f) h = f a h'.
Proof. intros Hm. by rewrite bind_run, Hm. Qed.

Lemma bind_throw {A B} {m : M A} {f : A → M B} {h e h'} :
  m h = (Throw e, h') → (m ≫= f) h = (Throw e, h').
Proof. intros Hm. by rewrite bind_run, Hm. Qed.

Lemma assert_true h : assert true h = (Ok (), h).
Proof. reflexivity. Qed.

Lemma assert_false h : assert false h = (Throw AssertionError, h).
Proof. reflexivity. Qed.

Lemma reads_run {A} (g : heap → A) h : reads g h = (Ok (g h), h).
Proof. reflexivity. Qed.

Lemma mret_run {A} (a : A) h : (mret a : M A) h = (Ok a, h).
Proof. reflexivity. Qed.

Lemma unbound_identifier_run ident h :
  unbound_identifier ident h = (Throw (ReferenceError ident), h).
Proof. reflexivity. Qed.

Lemma index_ok_run idx h :
  ∃ b, BooleanSet.index_ok idx h = (Ok b, h).
Proof.
  unfold BooleanSet.index_ok. destruct (GenUtils.isInt idx); by eexists.
Qed.

Lemma index_ok_bad idx h :
  bad_index idx = true → BooleanSet.index_ok idx h = (Ok false, h).
Proof.
  unfold bad_index, BooleanSet.index_ok. intros Hbad.
  destruct idx as [| | |n| |]; try reflexivity.
  destruct (GenUtils.isInt (JNum n)); [|reflexivity].
  simpl in Hbad. by destruct (num_ge_zero n) eqn:E; [|unfold BooleanSet.ge_zero, reads; simpl; rewrite E].
Qed.

Lemma index_ok_index n h : BooleanSet.index_ok (index n) h = (Ok true, h).
Proof.
  unfold BooleanSet.index_ok, index, num_of_Z, GenUtils.isInt. simpl.
  rewrite Z.mod_1_r. simpl.
  unfold BooleanSet.ge_zero, reads. simpl. f_equal. f_equal.
  unfold Qle_bool. simpl. apply Z.leb_le. lia.
Qed.

(** The unimplemented methods throw and touch nothing. *)
Lemma length_throws this h :
  ∃ e, BooleanSet.length this h = (Throw e, h).
Proof.
  unfold BooleanSet.length. rewrite bind_run, get_prop_run.
  destruct (get_prop this "flipped" h).1 as [v|e]; [|by eexists].
  destruct (truthy v); by eexists.
Qed.

(** ** Invalid arguments *)

(** C7: a public operation called with an invalid argument (a value that
    is not a boolean where one is required, or a supplied index that is
    negative or not an integer) throws, and the heap, hence the state of
    the set, is exactly what it was before the call. *)
Theorem invalid_argument_rejected this c h :
  invalid_argument c = true →
  ∃ e, invoke this c h = (Throw e, h).
Proof.
  destruct c as [| | |val idx|val a b|idx|a b|idx|val a b|val a b
                 |val a b|val a b|a b|]; simpl; intros Hbad;
    try discriminate; try (by eexists).
  - (* set *)
    unfold BooleanSet.set, bad_boolean in *. rewrite bind_run.
    destruct (is_boolean val); simpl in *; [|by eexists].
    assert (is_nullish idx = false) as ->
      by (unfold bad_index in Hbad; by destruct (is_nullish idx)).
    by rewrite (bind_ok (index_ok_bad _ _ Hbad)); eexists.
  - (* get *)
    unfold BooleanSet.get. by rewrite (bind_ok (index_ok_bad _ _ Hbad)); eexists.
  - (* allSet *)
    unfold BooleanSet.allSet, BooleanSet.allSet_via. rewrite bind_run.
    destruct (is_boolean val); by eexists.
  - (* anySet *)
    unfold BooleanSet.anySet, BooleanSet.anySet_via. rewrite bind_run.
    destruct (is_boolean val); by eexists.
  - (* toArray *)
    unfold BooleanSet.toArray. rewrite bind_run.
    destruct (is_undefined b); [|by eexists].
    destruct (length_throws this h) as [e ->]. by eexists.
Qed.

(** ** allSet and anySet *)

(** Whatever [getFirst] computes, [allSet] of a value answers true exactly
    when [anySet] of the opposite value answers false: both ask [getFirst]
    the same question and compare its answer with [null]. *)
Lemma allSet_anySet_via getFirst this (v : bool) a b h h' :
  is_undefined a = false →
  BooleanSet.allSet_via getFirst this (JBool v) a b h = (Ok (JBool true), h') ↔
  BooleanSet.anySet_via getFirst this (JBool (negb v)) a b h = (Ok (JBool false), h').
Proof.
  intros Ha. unfold BooleanSet.allSet_via, BooleanSet.anySet_via, default_arg.
  rewrite Ha. change (js_not (JBool v)) with (JBool (negb v)).
  cbn [is_boolean assert]. rewrite !bind_run. unfold mret, M_ret.
  rewrite !bind_run.
  destruct (getFirst this (JBool (negb v)) a b h) as [[r|e] h1];
    [|split; intros [=]].
  destruct (is_null r); split; intros Heq; by simplify_eq.
Qed.


(** ** flipRange *)

Lemma flipRange_run this a b h :
  BooleanSet.flipRange this a b h = (Throw (Error "Not implemented"), h).
Proof. reflexivity. Qed.


(** ** get *)

(** The loop of [get] throws in its first iteration: a TypeError when the
    element has no property to read, else the ReferenceError of
    [index]. *)
Lemma get_loop_first x xs (acc : bool) h :
  for_of (x :: xs) acc (λ inRange range,
    lo ← get_prop range "start";
    index ← unbound_identifier "index";
    c ← BooleanSet.js_le lo index;
    if c : bool then
      hi ← get_prop range "end";
      index ← unbound_identifier "index";
      c ← BooleanSet.js_ge hi index;
      if c : bool then mret (true, Break) else mret (inRange, Continue)
    else mret (inRange, Continue)) h =
  (Throw (match (get_prop x "start" h).1 with
          | Ok _ => ReferenceError "index"
          | Throw e => e
          end), h).
Proof.
  cbn [for_of]. rewrite !bind_run.
  run_get_prop x "start" h r E. by destruct r.
Qed.

Lemma get_loop_throws x xs (acc : bool) h :
  ∃ e, (e = TypeError ∨ e = ReferenceError "index") ∧
    for_of (x :: xs) acc (λ inRange range,
      lo ← get_prop range "start";
      index ← unbound_identifier "index";
      c ← BooleanSet.js_le lo index;
      if c : bool then
        hi ← get_prop range "end";
        index ← unbound_identifier "index";
        c ← BooleanSet.js_ge hi index;
        if c : bool then mret (true, Break) else mret (inRange, Continue)
      else mret (inRange, Continue)) h = (Throw e, h).
Proof.
  rewrite get_loop_first. eexists. split; [|reflexivity].
  run_get_prop x "start" h r E. destruct r as [v|e]; [by right|left].
  cbn [fst]. unfold get_prop in E.
  destruct x as [| | | | |l]; [..|destruct (h !! l)]; congruence.
Qed.

Lemma stored_ranges_Some h this xs :
  stored_ranges h this = Some xs →
  ∃ st rs, get_prop this "state" h = (Ok st, h) ∧
           get_prop st "ranges" h = (Ok rs, h) ∧
           iterate rs h = (Ok xs, h).
Proof.
  unfold stored_ranges. rewrite bind_run.
  run_get_prop this "state" h r1 E1. destruct r1 as [st|e]; [|discriminate].
  rewrite bind_run.
  run_get_prop st "ranges" h r2 E2. destruct r2 as [rs|e]; [|discriminate].
  run_iterate rs h r3 E3. destruct r3 as [ys|e]; [|discriminate].
  intros [= ->]. by exists st, rs.
Qed.

(** What [get] does on a set whose parts are known. *)
Lemma get_run_empty this idx st rs h :
  BooleanSet.index_ok idx h = (Ok true, h) →
  get_prop this "state" h = (Ok st, h) →
  get_prop st "ranges" h = (Ok rs, h) →
  iterate rs h = (Ok [], h) →
  BooleanSet.get this idx h = get_prop st "inverted" h.
Proof.
  intros Hidx Hst Hrs Hxs. unfold BooleanSet.get.
  rewrite (bind_ok Hidx), (bind_ok (assert_true h)).
  rewrite (bind_ok Hst), (bind_ok Hrs), (bind_ok Hxs).
  cbn [for_of]. rewrite (bind_ok (mret_run false h)), (bind_ok Hst).
  rewrite bind_run. run_get_prop st "inverted" h r E. by destruct r.
Qed.

Lemma get_run_nonempty this idx st rs x xs h :
  BooleanSet.index_ok idx h = (Ok true, h) →
  get_prop this "state" h = (Ok st, h) →
  get_prop st "ranges" h = (Ok rs, h) →
  iterate rs h = (Ok (x :: xs), h) →
  ∃ e, (e = TypeError ∨ e = ReferenceError "index") ∧
       BooleanSet.get this idx h = (Throw e, h).
Proof.
  intros Hidx Hst Hrs Hxs. unfold BooleanSet.get.
  rewrite (bind_ok Hidx), (bind_ok (assert_true h)).
  rewrite (bind_ok Hst), (bind_ok Hrs), (bind_ok Hxs).
  destruct (get_loop_throws x xs false h) as (e & He & Hloop).
  rewrite (bind_throw Hloop). by exists e.
Qed.

(** C9: on a set whose stored range collection is [xs] and for a valid
    index, [get] throws when [xs] is not empty (a ReferenceError for the
    identifier [index], or a TypeError when the first element has no
    properties to read), and when it returns, [xs] is empty and the result
    is the raw [state.inverted]. *)
Theorem get_throws_unless_empty this idx xs h :
  stored_ranges h this = Some xs →
  BooleanSet.index_ok idx h = (Ok true, h) →
  (xs ≠ [] →
     ∃ e, (e = TypeError ∨ e = ReferenceError "index") ∧
          BooleanSet.get this idx h = (Throw e, h)) ∧
  (∀ v h', BooleanSet.get this idx h = (Ok v, h') →
     xs = [] ∧ stored_inverted h this = Some v ∧ h' = h).
Proof.
  intros (st & rs & Hst & Hrs & Hxs)%stored_ranges_Some Hidx.
  destruct xs as [|x xs].
  - pose proof (get_run_empty this idx st rs h Hidx Hst Hrs Hxs) as Hget.
    split; [done|]. intros v h'. rewrite Hget. intros Hinv.
    unfold stored_inverted. rewrite (bind_ok Hst), Hinv.
    split; [done|]. split; [done|].
    pose proof (get_prop_heap st "inverted" h) as Hh.
    rewrite Hinv in Hh. exact Hh.
  - pose proof (get_run_nonempty this idx st rs x xs h Hidx Hst Hrs Hxs) as Hget.
    destruct Hget as (e & He & Hget). split; [by exists e|].
    intros v h'. by rewrite Hget.
Qed.

(** ** Primitive steps on known objects *)

Lemma get_prop_lookup l o k h :
  h !! l = Some o →
  get_prop (JRef l) k h = (Ok (default undefined (props o !! k)), h).
Proof. intros Hl. unfold get_prop. by rewrite Hl. Qed.

Lemma get_prop_Some l o k v h :
  h !! l = Some o → props o !! k = Some v →
  get_prop (JRef l) k h = (Ok v, h).
Proof. intros Hl Hk. unfold get_prop. by rewrite Hl, Hk. Qed.

Lemma get_prop_None l o k h :
  h !! l = Some o → props o !! k = None →
  get_prop (JRef l) k h = (Ok undefined, h).
Proof. intros Hl Hk. unfold get_prop. by rewrite Hl, Hk. Qed.

Lemma set_prop_lookup l o k x h :
  h !! l = Some o →
  set_prop (JRef l) k x h =
  (Ok (), <[l := Object (kind_of o) (<[k := x]> (props o))]> h).
Proof. intros Hl. unfold set_prop. by rewrite Hl. Qed.

Lemma delete_prop_lookup l o k h :
  h !! l = Some o →
  delete_prop (JRef l) k h =
  (Ok (), <[l := Object (kind_of o) (delete k (props o))]> h).
Proof. intros Hl. unfold delete_prop. by rewrite Hl. Qed.

Lemma set_length_zero_array l xs ps h :
  h !! l = Some (Object (Array xs) ps) →
  set_length_zero (JRef l) h = (Ok (), <[l := Object (Array []) ps]> h).
Proof. intros Hl. unfold set_length_zero. by rewrite Hl. Qed.

Lemma iterate_array l xs ps h :
  h !! l = Some (Object (Array xs) ps) →
  iterate (JRef l) h = (Ok xs, h).
Proof. intros Hl. unfold iterate. by rewrite Hl. Qed.

Lemma alloc_run o h :
  ∃ l, h !! l = None ∧ alloc o h = (Ok (JRef l), <[l := o]> h).
Proof.
  exists (fresh (dom h)). split; [|reflexivity].
  apply not_elem_of_dom, is_fresh.
Qed.

(** ** The shape of a set in the heap *)

Lemma set_at_state h t s a :
  set_at h t s a → get_prop (JRef t) "state" h = (Ok (JRef s), h).
Proof.
  intros (_ & (pt & Ht & Hs) & _). rewrite (get_prop_lookup _ _ _ _ Ht).
  simpl. by rewrite Hs.
Qed.

Lemma set_at_ranges h t s a :
  set_at h t s a → get_prop (JRef s) "ranges" h = (Ok (JRef a), h).
Proof.
  intros (_ & _ & (ks & ps & Hs & Ha) & _).
  rewrite (get_prop_lookup _ _ _ _ Hs). simpl. by rewrite Ha.
Qed.

Lemma set_at_ne h t s a : set_at h t s a → t ≠ a.
Proof.
  intros (_ & (pt & Ht & _) & _ & (xs & pa & Ha)) ->. congruence.
Qed.

(** The default branch of the constructor allocates an empty state object
    and an empty array. *)
Lemma constructor_default_run t v h :
  instanceof_BooleanSet h v = false →
  truthy v = false →
  h !! t = Some (Object BooleanSetInstance ∅) →
  ∃ s a,
    h !! s = None ∧ h !! a = None ∧ s ≠ a ∧
    BooleanSet.constructor (JRef t) v h =
    (Ok (), <[s := Object Plain {["ranges" := JRef a]}]>
              (<[a := Object (Array []) ∅]>
                 (<[t := Object BooleanSetInstance {["state" := JRef s]}]>
                    (<[s := Object Plain ∅]> h)))).
Proof.
  intros Hinst Htruthy Ht. unfold BooleanSet.constructor.
  rewrite (bind_ok (reads_run _ h)), Hinst, Htruthy.
  destruct (alloc_run (Object Plain ∅) h) as (s & Hs & Hallocs).
  rewrite (bind_ok Hallocs).
  assert (t ≠ s) as Hts by congruence.
  set (h1 := <[s := Object Plain ∅]> h).
  assert (h1 !! t = Some (Object BooleanSetInstance ∅)) as Ht1
    by (unfold h1; by rewrite lookup_insert_ne).
  rewrite (bind_ok (set_prop_lookup _ _ _ _ _ Ht1)).
  cbn [kind_of props]. rewrite insert_empty.
  set (h2 := <[t := _]> h1).
  assert (h2 !! t = Some (Object BooleanSetInstance {["state" := JRef s]}))
    as Ht2 by (unfold h2; by rewrite lookup_insert_eq).
  rewrite (bind_ok (get_prop_lookup _ _ "state" _ Ht2)).
  cbn [props]. rewrite lookup_singleton_eq. cbn [default from_option].
  destruct (alloc_run (Object (Array []) ∅) h2) as (a & Ha & Halloca).
  rewrite (bind_ok Halloca).
  assert (a ≠ t) as Hat
    by (intros ->; unfold h2 in Ha; by rewrite lookup_insert_eq in Ha).
  assert (a ≠ s) as Has
    by (intros ->; unfold h2, h1 in Ha;
        by rewrite lookup_insert_ne, lookup_insert_eq in Ha).
  assert (<[a := Object (Array []) ∅]> h2 !! s = Some (Object Plain ∅)) as Hs2
    by (unfold h2, h1;
        by rewrite lookup_insert_ne, lookup_insert_ne, lookup_insert_eq).
  rewrite (set_prop_lookup _ _ _ _ _ Hs2). cbn [kind_of props].
  rewrite insert_empty. exists s, a.
  split; [done|]. split; [|done].
  unfold h2, h1 in Ha. by rewrite !lookup_insert_ne in Ha.
Qed.

(** [new BooleanSet()] builds an instance, an empty state object and an
    empty array, all new, and leaves the other objects alone. *)
Lemma new_undefined_run h :
  ∃ t s a h',
    BooleanSet.new undefined h = (Ok (JRef t), h') ∧
    h ⊆ h' ∧ set_at h' t s a ∧
    h' !! t = Some (Object BooleanSetInstance {["state" := JRef s]}) ∧
    h' !! s = Some (Object Plain {["ranges" := JRef a]}) ∧
    h' !! a = Some (Object (Array []) ∅).
Proof.
  unfold BooleanSet.new.
  destruct (alloc_run (Object BooleanSetInstance ∅) h) as (t & Ht & Halloc).
  rewrite (bind_ok Halloc). set (h1 := <[t := _]> h).
  destruct (constructor_default_run t undefined h1)
    as (s & a & Hs & Ha & Hsa & Hrun); [done..| |].
  { unfold h1. apply lookup_insert_eq. }
  rewrite (bind_ok Hrun).
  assert (t ≠ s) as Hts
    by (intros ->; unfold h1 in Hs; by rewrite lookup_insert_eq in Hs).
  assert (t ≠ a) as Hta
    by (intros ->; unfold h1 in Ha; by rewrite lookup_insert_eq in Ha).
  unfold h1 in Hs, Ha. rewrite lookup_insert_ne in Hs, Ha by done.
  exists t, s, a. eexists. split; [reflexivity|].
  set (h' := <[s := _]> _).
  assert (h' !! t = Some (Object BooleanSetInstance {["state" := JRef s]})) as Ht3
    by (unfold h'; by rewrite lookup_insert_ne, lookup_insert_ne, lookup_insert_eq).
  assert (h' !! s = Some (Object Plain {["ranges" := JRef a]})) as Hs3
    by (unfold h'; by rewrite lookup_insert_eq).
  assert (h' !! a = Some (Object (Array []) ∅)) as Ha3
    by (unfold h'; by rewrite lookup_insert_ne, lookup_insert_eq).
  split.
  { unfold h', h1. repeat (apply insert_subseteq_r; [done|]).
    reflexivity. }
  split; [|done].
  split; [done|]. split; [|split].
  - eexists. split; [apply Ht3|]. apply lookup_singleton_eq.
  - do 2 eexists. split; [apply Hs3|]. apply lookup_singleton_eq.
  - do 2 eexists. apply Ha3.
Qed.

(** ** set(val) *)

(** [set(val)] without an index empties the array, deletes
    [state.inverted] and, for [true], writes the property [inverted] of
    the instance itself. *)
Lemma set_all_run h t s a (b : bool) idx :
  is_nullish idx = true →
  set_at h t s a →
  ∃ h',
    BooleanSet.set (JRef t) (JBool b) idx h = (Ok undefined, h') ∧
    set_at h' t s a ∧
    (∀ l, l ≠ t → l ≠ s → l ≠ a → h' !! l = h !! l) ∧
    iterate (JRef a) h' = (Ok [], h') ∧
    get_prop (JRef s) "inverted" h' = (Ok undefined, h') ∧
    (get_prop (JRef t) "inverted" h').1 =
      (if b then Ok (JBool true) else (get_prop (JRef t) "inverted" h).1).
Proof.
  intros Hidx Hset. pose proof (set_at_ne _ _ _ _ Hset) as Hta.
  destruct Hset as (Hts & (pt & Ht & Hpt) & (ks & ps & Hs & Hps) & (xs & pa & Ha)).
  unfold BooleanSet.set. cbn [is_boolean].
  rewrite (bind_ok (assert_true h)), Hidx.
  rewrite (bind_ok (get_prop_lookup _ _ "state" _ Ht)).
  cbn [props]. rewrite Hpt. cbn [default from_option].
  rewrite (bind_ok (delete_prop_lookup _ _ "inverted" _ Hs)).
  cbn [kind_of props]. set (h1 := <[s := _]> h).
  assert (h1 !! t = Some (Object BooleanSetInstance pt)) as Ht1
    by (unfold h1; by rewrite lookup_insert_ne).
  assert (h1 !! s = Some (Object ks (delete "inverted" ps))) as Hs1
    by (unfold h1; by rewrite lookup_insert_eq).
  rewrite (bind_ok (get_prop_lookup _ _ "state" _ Ht1)).
  cbn [props]. rewrite Hpt. cbn [default from_option].
  rewrite (bind_ok (get_prop_lookup _ _ "ranges" _ Hs1)).
  cbn [props]. rewrite lookup_delete_ne, Hps by done. cbn [default from_option].
  assert (∃ xs1 pa1, h1 !! a = Some (Object (Array xs1) pa1) ∧
            (a = s → pa1 !! "ranges" = Some (JRef a) ∧ pa1 !! "inverted" = None))
    as (xs1 & pa1 & Ha1 & Has1).
  { destruct (decide (a = s)) as [->|Hne].
    - rewrite Hs in Ha. injection Ha as -> ->. do 2 eexists. split; [exact Hs1|].
      intros _. by rewrite lookup_delete_ne, lookup_delete_eq.
    - exists xs, pa. unfold h1. by rewrite lookup_insert_ne. }
  rewrite (bind_ok (set_length_zero_array _ _ _ _ Ha1)).
  set (h2 := <[a := _]> h1).
  assert (h2 !! t = Some (Object BooleanSetInstance pt)) as Ht2
    by (unfold h2; by rewrite lookup_insert_ne).
  assert (h2 !! a = Some (Object (Array []) pa1)) as Ha2
    by (unfold h2; by rewrite lookup_insert_eq).
  assert (∃ ks2 ps2, h2 !! s = Some (Object ks2 ps2) ∧
            ps2 !! "ranges" = Some (JRef a) ∧ ps2 !! "inverted" = None)
    as (ks2 & ps2 & Hs2 & Hps2 & Hinv2).
  { destruct (decide (a = s)) as [->|Hne].
    - destruct (Has1 eq_refl) as [? ?]. by exists (Array []), pa1.
    - exists ks, (delete "inverted" ps). unfold h2.
      rewrite lookup_insert_ne by done. split; [done|].
      by rewrite lookup_delete_ne, lookup_delete_eq. }
  assert (∀ l, l ≠ t → l ≠ s → l ≠ a → h2 !! l = h !! l) as Hframe2.
  { intros l _ Hls Hla. unfold h2, h1. by rewrite !lookup_insert_ne. }
  destruct b; cbn [truthy].
  - rewrite (bind_ok (set_prop_lookup _ _ "inverted" (JBool true) _ Ht2)).
    cbn [kind_of props]. eexists. split; [reflexivity|].
    set (h3 := <[t := _]> h2).
    assert (h3 !! t = Some (Object BooleanSetInstance (<["inverted" := JBool true]> pt)))
      as Ht3 by (unfold h3; by rewrite lookup_insert_eq).
    assert (h3 !! s = Some (Object ks2 ps2)) as Hs3
      by (unfold h3; by rewrite lookup_insert_ne).
    assert (h3 !! a = Some (Object (Array []) pa1)) as Ha3
      by (unfold h3; by rewrite lookup_insert_ne).
    split; [|split; [|split; [|split]]].
    + split; [done|]. split; [|split].
      * eexists. split; [exact Ht3|]. by rewrite lookup_insert_ne.
      * by exists ks2, ps2.
      * by exists [], pa1.
    + intros l Hlt Hls Hla. unfold h3. rewrite lookup_insert_ne by done.
      by apply Hframe2.
    + by apply (iterate_array _ _ _ _ Ha3).
    + rewrite (get_prop_lookup _ _ _ _ Hs3). cbn [props]. by rewrite Hinv2.
    + rewrite (get_prop_lookup _ _ _ _ Ht3). cbn [props fst].
      by rewrite lookup_insert_eq.
  - rewrite (bind_ok (mret_run () h2)). eexists. split; [reflexivity|].
    split; [|split; [|split; [|split]]].
    + split; [done|]. split; [|split].
      * by exists pt.
      * by exists ks2, ps2.
      * by exists [], pa1.
    + done.
    + by apply (iterate_array _ _ _ _ Ha2).
    + rewrite (get_prop_lookup _ _ _ _ Hs2). cbn [props]. by rewrite Hinv2.
    + by rewrite (get_prop_lookup _ _ _ _ Ht2), (get_prop_lookup _ _ _ _ Ht).
Qed.

(** On a set with no stored range and no [state.inverted], [get] answers
    [undefined] at every index. *)
Lemma get_on_cleared h t s a n :
  set_at h t s a →
  iterate (JRef a) h = (Ok [], h) →
  get_prop (JRef s) "inverted" h = (Ok undefined, h) →
  BooleanSet.get (JRef t) (index n) h = (Ok undefined, h).
Proof.
  intros Hset Hiter Hinv.
  rewrite (get_run_empty (JRef t) (index n) (JRef s) (JRef a) h); try done.
  - apply index_ok_index.
  - by eapply set_at_state.
  - by eapply set_at_ranges.
Qed.

(** ** The fresh set *)

(** C1, on the code: [get(n)] on a freshly constructed set returns
    [undefined], the value of the absent [state.inverted], and not the
    boolean false. *)
Theorem fresh_get_returns_undefined h n :
  ∃ this h1,
    BooleanSet.new undefined h = (Ok this, h1) ∧
    BooleanSet.get this (index n) h1 = (Ok undefined, h1).
Proof.
  destruct (new_undefined_run h) as (t & s & a & h1 & Hnew & _ & Hset & Ht & Hs & Ha).
  exists (JRef t), h1. split; [done|].
  apply (get_on_cleared h1 t s a n Hset).
  - by apply (iterate_array _ _ _ _ Ha).
  - by rewrite (get_prop_lookup _ _ _ _ Hs).
Qed.

(** C2, on the code: after [set(val)] on a freshly constructed set the
    range collection is empty, but [state.inverted] is absent whatever
    [val] is ([set(true)] leaves its [true] in the property [inverted] of
    the instance), and [get(n)] returns [undefined] at every index. *)
Theorem set_all_leaves_inverted_absent h (val : bool) :
  ∃ this h1 h2,
    BooleanSet.new undefined h = (Ok this, h1) ∧
    BooleanSet.set this (JBool val) undefined h1 = (Ok undefined, h2) ∧
    stored_ranges h2 this = Some [] ∧
    stored_inverted h2 this = Some undefined ∧
    (get_prop this "inverted" h2).1 =
      Ok (if val then JBool true else undefined) ∧
    ∀ n, BooleanSet.get this (index n) h2 = (Ok undefined, h2).
Proof.
  destruct (new_undefined_run h) as (t & s & a & h1 & Hnew & _ & Hset & Ht & _).
  destruct (set_all_run h1 t s a val undefined eq_refl Hset)
    as (h2 & Hrun & Hset2 & _ & Hiter & Hinv & Hown).
  exists (JRef t), h1, h2. split; [done|]. split; [done|].
  pose proof (set_at_state _ _ _ _ Hset2) as Hst.
  pose proof (set_at_ranges _ _ _ _ Hset2) as Hrs.
  split; [|split; [|split]].
  - unfold stored_ranges. by rewrite (bind_ok Hst), (bind_ok Hrs), Hiter.
  - unfold stored_inverted. by rewrite (bind_ok Hst), Hinv.
  - rewrite Hown. destruct val; [done|].
    by rewrite (get_prop_lookup _ _ _ _ Ht).
  - intros n. by apply (get_on_cleared h2 t s a n).
Qed.

(** C3, on the code: after [set(true)] on a freshly constructed set,
    [get(n)] returns [undefined] at every index, not true, and [length()]
    throws a ReferenceError for the identifier [getLast] instead of
    returning 0. *)
Theorem set_true_then_get_and_length h :
  ∃ this h1 h2,
    BooleanSet.new undefined h = (Ok this, h1) ∧
    BooleanSet.set this (JBool true) undefined h1 = (Ok undefined, h2) ∧
    (∀ n, BooleanSet.get this (index n) h2 = (Ok undefined, h2)) ∧
    BooleanSet.length this h2 = (Throw (ReferenceError "getLast"), h2).
Proof.
  destruct (new_undefined_run h) as (t & s & a & h1 & Hnew & _ & Hset & _).
  destruct (set_all_run h1 t s a true undefined eq_refl Hset)
    as (h2 & Hrun & Hset2 & _ & Hiter & Hinv & Hown).
  exists (JRef t), h1, h2. split; [done|]. split; [done|]. split.
  - intros n. by apply (get_on_cleared h2 t s a n).
  - unfold BooleanSet.length. rewrite bind_run.
    run_get_prop (JRef t) "flipped" h2 r E.
    destruct Hset2 as (_ & (pt & Ht & _) & _).
    rewrite (get_prop_lookup _ _ _ _ Ht) in E. injection E as <-.
    by destruct (truthy _).
Qed.

(** ** State validation *)

Lemma isArray_true h v :
  isArray h v = true →
  ∃ a xs pa, v = JRef a ∧ h !! a = Some (Object (Array xs) pa).
Proof.
  destruct v as [| | | | |a]; try discriminate. cbn [isArray].
  destruct (h !! a) as [[[| |xs] pa]|] eqn:Ha; try discriminate.
  intros _. by exists a, xs, pa.
Qed.

Lemma instanceof_Object_true h v :
  instanceof_Object h v = true → ∃ s o, v = JRef s ∧ h !! s = Some o.
Proof.
  destruct v as [| | | | |s]; try discriminate. cbn [instanceof_Object].
  intros [o Ho]%bool_decide_eq_true. by exists s, o.
Qed.

Lemma ge_zero_run v h :
  BooleanSet.ge_zero v h = (Ok (num_ge_zero (BooleanSet.ToNumber h v)), h).
Proof. reflexivity. Qed.

Lemma validate_body_run x h :
  ∃ r,
    (lo ← get_prop x "start";
     c ← BooleanSet.ge_zero lo;
     assert c;;
     hi ← get_prop x "end";
     c ← BooleanSet.ge_zero hi;
     assert c;;
     mret ((), Continue)) h = (r, h) ∧
    (r = Ok ((), Continue) ↔ range_bounds_ok h x) ∧
    (∀ a, r = Ok a → a = ((), Continue)).
Proof.
  unfold range_bounds_ok. rewrite bind_run.
  run_get_prop x "start" h r1 E1. destruct r1 as [lo|e].
  2:{ exists (Throw e). split; [reflexivity|]. split; [|done]. split; [done|].
      intros (lo & hi & [=] & _). }
  rewrite (bind_ok (ge_zero_run lo h)).
  destruct (num_ge_zero (BooleanSet.ToNumber h lo)) eqn:Elo.
  2:{ exists (Throw AssertionError). split; [reflexivity|]. split; [|done].
      split; [done|]. intros (lo' & hi & [= <-] & Hge & _). congruence. }
  rewrite (bind_ok (assert_true h)), bind_run.
  run_get_prop x "end" h r2 E2. destruct r2 as [hi|e].
  2:{ exists (Throw e). split; [reflexivity|]. split; [|done]. split; [done|].
      intros (lo' & hi & _ & _ & [=] & _). }
  rewrite (bind_ok (ge_zero_run hi h)).
  destruct (num_ge_zero (BooleanSet.ToNumber h hi)) eqn:Ehi.
  2:{ exists (Throw AssertionError). split; [reflexivity|]. split; [|done].
      split; [done|]. intros (lo' & hi' & _ & _ & [= <-] & Hge). congruence. }
  rewrite (bind_ok (assert_true h)).
  exists (Ok ((), Continue)). split; [reflexivity|]. split.
  - split; [|done]. intros _. by exists lo, hi.
  - by intros a [= <-].
Qed.

Lemma validate_loop_run xs h :
  ∃ r,
    for_of xs () (λ _ range,
      lo ← get_prop range "start";
      c ← BooleanSet.ge_zero lo;
      assert c;;
      hi ← get_prop range "end";
      c ← BooleanSet.ge_zero hi;
      assert c;;
      mret ((), Continue)) h = (r, h) ∧
    (r = Ok () ↔ Forall (range_bounds_ok h) xs).
Proof.
  induction xs as [|x xs IH].
  - exists (Ok ()). split; [reflexivity|]. split; [by constructor|done].
  - cbn [for_of]. rewrite bind_run.
    destruct (validate_body_run x h) as (r & -> & Hr & Hcont).
    destruct r as [[[] f]|e].
    + specialize (Hcont _ eq_refl). injection Hcont as ->.
      destruct IH as (r & Hrun & Hrs). exists r. split; [exact Hrun|].
      rewrite Hrs. split.
      * intros Hall. constructor; [by apply Hr|done].
      * intros Hall. by inversion Hall.
    + exists (Throw e). split; [reflexivity|]. split; [done|].
      intros Hall. inversion Hall as [|? ? Hx _]; subst.
      apply Hr in Hx. discriminate.
Qed.

(** Validation only reads. *)
Lemma validateState_heap state h :
  (BooleanSet._validateState state h).2 = h.
Proof.
  unfold BooleanSet._validateState. rewrite bind_run.
  destruct (truthy state); [|reflexivity]. cbn [assert mret M_ret].
  rewrite bind_run. cbn [reads].
  destruct (instanceof_Object h state); [|reflexivity].
  rewrite bind_run. cbn [assert mret M_ret]. rewrite bind_run.
  run_get_prop state "inverted" h r1 E1. destruct r1 as [inv|e]; [|reflexivity].
  rewrite bind_run. destruct (is_boolean inv); [|reflexivity].
  cbn [assert mret M_ret]. rewrite bind_run.
  run_get_prop state "ranges" h r2 E2. destruct r2 as [rs|e]; [|reflexivity].
  rewrite bind_run. destruct (negb (is_undefined rs)); [|reflexivity].
  cbn [assert mret M_ret]. rewrite bind_run, E2, bind_run. cbn [reads].
  destruct (isArray h rs); [|reflexivity].
  rewrite bind_run. cbn [assert mret M_ret]. rewrite bind_run, E2, bind_run.
  run_iterate rs h r3 E3. destruct r3 as [xs|e]; [|reflexivity].
  destruct (validate_loop_run xs h) as (r & -> & _). reflexivity.
Qed.

(** C8, as amended: state validation accepts a state exactly when it is an
    object whose [inverted] is a boolean and whose [ranges] is an array
    each element of which has a [start] and an [end] that are [>= 0];
    neither the order of the ranges, nor their overlap or adjacency, nor
    the number or place of unbounded ones is looked at. *)
Theorem validateState_accepts_iff state h :
  BooleanSet._validateState state h = (Ok (), h) ↔ state_accepted h state.
Proof.
  unfold BooleanSet._validateState, state_accepted. split.
  - destruct (truthy state);
      [|rewrite (bind_throw (assert_false h)); discriminate].
    rewrite (bind_ok (assert_true h)), (bind_ok (reads_run _ h)).
    destruct (instanceof_Object h state) eqn:Hobj;
      [|rewrite (bind_throw (assert_false h)); discriminate].
    apply instanceof_Object_true in Hobj as (s & o & -> & Hs).
    rewrite (bind_ok (assert_true h)).
    destruct (props o !! "inverted") as [inv|] eqn:Hinv.
    2:{ rewrite (bind_ok (get_prop_None _ _ _ _ Hs Hinv)). discriminate. }
    rewrite (bind_ok (get_prop_Some _ _ _ _ _ Hs Hinv)).
    destruct (is_boolean inv) eqn:Hb;
      [|rewrite (bind_throw (assert_false h)); discriminate].
    destruct inv as [| |b| | |]; try discriminate Hb.
    rewrite (bind_ok (assert_true h)).
    destruct (props o !! "ranges") as [rs|] eqn:Hrs.
    2:{ rewrite (bind_ok (get_prop_None _ _ _ _ Hs Hrs)). discriminate. }
    rewrite (bind_ok (get_prop_Some _ _ _ _ _ Hs Hrs)).
    destruct (negb (is_undefined rs));
      [|rewrite (bind_throw (assert_false h)); discriminate].
    rewrite (bind_ok (assert_true h)).
    rewrite (bind_ok (get_prop_Some _ _ _ _ _ Hs Hrs)).
    rewrite (bind_ok (reads_run _ h)).
    destruct (isArray h rs) eqn:Harr;
      [|rewrite (bind_throw (assert_false h)); discriminate].
    apply isArray_true in Harr as (a & xs & pa & -> & Ha).
    rewrite (bind_ok (assert_true h)).
    rewrite (bind_ok (get_prop_Some _ _ _ _ _ Hs Hrs)).
    rewrite (bind_ok (iterate_array _ _ _ _ Ha)).
    destruct (validate_loop_run xs h) as (r & -> & Hr).
    intros [= ->]. exists s, o, b, a, xs, pa. repeat (split; [done|]).
    by apply Hr.
  - intros (s & o & b & a & xs & pa & -> & Hs & Hinv & Hrs & Ha & Hall).
    cbn [truthy]. rewrite (bind_ok (assert_true h)).
    rewrite (bind_ok (reads_run _ h)). cbn [instanceof_Object].
    rewrite bool_decide_true by (by rewrite Hs).
    rewrite (bind_ok (assert_true h)).
    rewrite (bind_ok (get_prop_Some _ _ _ _ _ Hs Hinv)).
    cbn [is_boolean]. rewrite (bind_ok (assert_true h)).
    rewrite (bind_ok (get_prop_Some _ _ _ _ _ Hs Hrs)).
    cbn [is_undefined negb]. rewrite (bind_ok (assert_true h)).
    rewrite (bind_ok (get_prop_Some _ _ _ _ _ Hs Hrs)).
    rewrite (bind_ok (reads_run _ h)). cbn [isArray]. rewrite Ha.
    rewrite (bind_ok (assert_true h)).
    rewrite (bind_ok (get_prop_Some _ _ _ _ _ Hs Hrs)).
    rewrite (bind_ok (iterate_array _ _ _ _ Ha)).
    destruct (validate_loop_run xs h) as (r & -> & Hr).
    f_equal. by apply Hr.
Qed.

(** The constructor never reaches the validation of a state object given
    by the caller: it reads the identifier [state], which has no
    binding. *)
Lemma new_from_state_throws l o h :
  h !! l = Some o →
  kind_of o ≠ BooleanSetInstance →
  ∃ h', BooleanSet.new (JRef l) h = (Throw (ReferenceError "state"), h').
Proof.
  intros Hl Hkind. unfold BooleanSet.new.
  destruct (alloc_run (Object BooleanSetInstance ∅) h) as (t & Ht & Halloc).
  rewrite (bind_ok Halloc). unfold BooleanSet.constructor.
  set (h1 := <[t := _]> h).
  assert (h1 !! l = Some o) as Hl1
    by (unfold h1; rewrite lookup_insert_ne; [done|congruence]).
  rewrite bind_run, (bind_ok (reads_run _ h1)).
  cbn [instanceof_BooleanSet]. rewrite Hl1.
  destruct o as [[| |xs] ps]; [|done|]; by eexists.
Qed.

(** ** Deep copies *)

Lemma outside_weaken h h' v : h ⊆ h' → outside h' v → outside h v.
Proof.
  intros Hsub Hout l ->. specialize (Hout l eq_refl).
  by eapply lookup_weaken_None.
Qed.

Lemma Forall2_elem_of_r {A B} (R : A → B → Prop) xs ys y :
  Forall2 R xs ys → y ∈ ys → ∃ x, x ∈ xs ∧ R x y.
Proof.
  induction 1 as [|x y' xs ys HR _ IH]; [by intros ?%elem_of_nil|].
  intros [->|Hin]%elem_of_cons.
  - exists x. split; [left|done].
  - destruct (IH Hin) as (x' & Hx' & HR'). exists x'. split; [by right|done].
Qed.

(** Running [f] over a list when [f] always returns and only extends the
    heap. *)
Lemma mapM_run {A B} (f : A → M B) (R : A → B → Prop) (h0 : heap) xs :
  (∀ a h, h0 ⊆ h → ∃ b h', f a h = (Ok b, h') ∧ h ⊆ h' ∧ R a b) →
  ∀ h, h0 ⊆ h →
    ∃ bs h', mapM f xs h = (Ok bs, h') ∧ h ⊆ h' ∧ Forall2 R xs bs.
Proof.
  intros Hf. induction xs as [|x xs IH]; intros h Hh.
  - exists [], h. split; [reflexivity|]. split; [done|constructor].
  - destruct (Hf x h Hh) as (b & h1 & Hb & Hh1 & HR).
    destruct (IH h1) as (bs & h2 & Hbs & Hh2 & HRs); [by etrans|].
    exists (b :: bs), h2. split; [|split; [by etrans|by constructor]].
    cbn [mapM]. by rewrite (bind_ok Hb), (bind_ok Hbs).
Qed.

(** A deep copy always returns, extends the heap, and with fuel left the
    copy of an object is a new object with the same property names, whose
    property values (with fuel for them too) are no references into the
    old heap. *)
Lemma deep_copy_run n v h :
  ∃ v' h',
    GenUtils.deep_copy n v h = (Ok v', h') ∧ h ⊆ h' ∧
    (n ≠ 0%nat → outside h v') ∧
    (¬ (∃ l o, v = JRef l ∧ h !! l = Some o) → v' = v ∧ h' = h) ∧
    (∀ l o, n ≠ 0%nat → v = JRef l → h !! l = Some o →
       ∃ l' o',
         v' = JRef l' ∧ h' !! l' = Some o' ∧
         (∀ k, props o !! k = None → props o' !! k = None) ∧
         (∀ k x, (2 ≤ n)%nat → props o' !! k = Some x → outside h x)).
Proof.
  revert v h. induction n as [|n IH]; intros v h.
  { exists v, h. split; [reflexivity|]. split; [done|]. split; [done|].
    split; [done|]. by intros l o []. }
  cbn [GenUtils.deep_copy].
  destruct v as [| | | | |l];
    try (eexists _, h; split; [reflexivity|];
         split; [done|]; split; [by intros _ l [=]|];
         split; [done|by intros l o _ [=]]).
  rewrite (bind_ok (reads_run _ h)).
  destruct (h !! l) as [[k ps]|] eqn:Hl.
  2:{ exists (JRef l), h. split; [reflexivity|]. split; [done|]. split.
      - by intros _ l' [= <-].
      - split; [done|]. intros l' o _ [= <-]. congruence. }
  (* the kind of the copy *)
  assert (∃ k' h1,
    match k with
    | Array elems => es ← mapM (GenUtils.deep_copy n) elems; mret (Array es)
    | _ => mret Plain
    end h = (Ok k', h1) ∧ h ⊆ h1) as (k' & h1 & Hk & Hh1).
  { destruct k as [| |elems]; try (by exists Plain, h).
    destruct (mapM_run (GenUtils.deep_copy n) (λ _ _, True) h elems)
      with (h := h) as (es & h1 & Hes & Hh1 & _); [|done|].
    - intros a h2 _. destruct (IH a h2) as (b & h3 & Hb & Hh3 & _).
      by exists b, h3.
    - exists (Array es), h1. by rewrite (bind_ok Hes). }
  rewrite (bind_ok Hk).
  (* the properties of the copy *)
  destruct (mapM_run
    (λ kv : string * value, x ← GenUtils.deep_copy n kv.2; mret (kv.1, x))
    (λ kv kv', kv'.1 = kv.1 ∧ (n ≠ 0%nat → outside h kv'.2))
    h (map_to_list ps)) with (h := h1) as (kvs & h2 & Hkvs & Hh2 & HR); [|done|].
  { intros [key x] h2 Hh2. cbn [fst snd].
    destruct (IH x h2) as (x' & h3 & Hx & Hh3 & Hout & _ & _).
    exists (key, x'), h3. rewrite (bind_ok Hx).
    split; [reflexivity|]. split; [done|]. split; [done|].
    intros Hn. eapply outside_weaken; [exact Hh2|]. by apply Hout. }
  rewrite (bind_ok Hkvs).
  destruct (alloc_run (Object k' (list_to_map kvs)) h2) as (l' & Hl' & Halloc).
  rewrite Halloc.
  assert (h ⊆ h2) as Hhh2 by (by etrans).
  exists (JRef l'), (<[l' := Object k' (list_to_map kvs)]> h2).
  split; [reflexivity|]. split.
  { apply insert_subseteq_r; [|done]. by eapply lookup_weaken_None. }
  assert (outside h (JRef l')) as Hout
    by (intros ? [= <-]; by eapply lookup_weaken_None).
  split; [done|]. split; [by intros []; exists l, (Object k ps)|].
  intros l0 o _ [= <-] Ho. rewrite Hl in Ho. injection Ho as <-.
  exists l', (Object k' (list_to_map kvs)).
  split; [done|]. split; [apply lookup_insert_eq|]. cbn [props]. split.
  - intros key Hkey. apply not_elem_of_list_to_map_1.
    intros (kv' & -> & Hin)%list_elem_of_fmap.
    destruct (Forall2_elem_of_r _ _ _ _ HR Hin) as ([key x] & Hin' & Heq & _).
    apply elem_of_map_to_list in Hin'. cbn [fst] in Heq. congruence.
  - intros key x Hn Hx. apply elem_of_list_to_map_2 in Hx.
    destruct (Forall2_elem_of_r _ _ _ _ HR Hx) as (kv & _ & _ & Hkv).
    apply Hkv. lia.
Qed.

(** ** copy() of a fresh set *)

Lemma validateState_inverted_absent l o h :
  h !! l = Some o →
  props o !! "inverted" = None →
  BooleanSet._validateState (JRef l) h = (Throw AssertionError, h).
Proof.
  intros Hl Hinv. unfold BooleanSet._validateState. cbn [truthy].
  rewrite (bind_ok (assert_true h)), (bind_ok (reads_run _ h)).
  cbn [instanceof_Object]. rewrite bool_decide_true by (by rewrite Hl).
  rewrite (bind_ok (assert_true h)).
  rewrite (bind_ok (get_prop_None _ _ _ _ Hl Hinv)).
  cbn [is_boolean]. by rewrite (bind_throw (assert_false h)).
Qed.

(** Copying a set whose state object has no [inverted] fails in the
    validation of the copied state. *)
Lemma copy_inverted_absent t pt s o h :
  h !! t = Some (Object BooleanSetInstance pt) →
  pt !! "state" = Some (JRef s) →
  h !! s = Some o →
  props o !! "inverted" = None →
  ∃ h', BooleanSet.copy (JRef t) h = (Throw AssertionError, h').
Proof.
  intros Ht Hpt Hs Hinv. unfold BooleanSet.copy, BooleanSet.new.
  destruct (alloc_run (Object BooleanSetInstance ∅) h) as (c & Hc & Halloc).
  rewrite (bind_ok Halloc). set (hc := <[c := _]> h).
  assert (hc !! t = Some (Object BooleanSetInstance pt)) as Htc
    by (unfold hc; rewrite lookup_insert_ne; [done|congruence]).
  assert (hc !! s = Some o) as Hsc
    by (unfold hc; rewrite lookup_insert_ne; [done|congruence]).
  unfold BooleanSet.constructor.
  rewrite bind_run, (bind_ok (reads_run _ hc)).
  cbn [instanceof_BooleanSet]. rewrite Htc.
  unfold BooleanSet.getState.
  rewrite (bind_ok (get_prop_Some _ _ _ _ _ Htc Hpt)).
  destruct (deep_copy_run (S (size hc)) (JRef s) hc)
    as (v' & hd & Hcopy & _ & _ & _ & Hobj).
  change (GenUtils.copyProperties (JRef s) hc = (Ok v', hd)) in Hcopy.
  destruct (Hobj s o) as (l' & o' & -> & Hl' & Hkeys & _); [done..|].
  rewrite (bind_ok Hcopy). unfold BooleanSet._setState.
  rewrite bind_run, (bind_throw (validateState_inverted_absent l' o' hd Hl' (Hkeys _ Hinv))).
  by eexists.
Qed.

(** C10: [copy()] on a freshly constructed set (that is, passing such a
    set to the constructor) throws: the copied state has no [inverted],
    and its validation asserts that [inverted] is a boolean. *)
Theorem copy_of_fresh_set_throws h :
  ∃ this h1 h2,
    BooleanSet.new undefined h = (Ok this, h1) ∧
    BooleanSet.copy this h1 = (Throw AssertionError, h2) ∧
    BooleanSet.new this h1 = (Throw AssertionError, h2).
Proof.
  destruct (new_undefined_run h) as (t & s & a & h1 & Hnew & _ & _ & Ht & Hs & _).
  destruct (copy_inverted_absent t _ s _ h1 Ht (lookup_singleton_eq _ _) Hs)
    as (h2 & Hcopy); [by apply lookup_singleton_ne|].
  by exists (JRef t), h1, h2.
Qed.

(** What [_validateState] has checked when it returns. *)
Lemma validateState_Ok_inv state h :
  BooleanSet._validateState state h = (Ok (), h) → state_accepted h state.
Proof.
  unfold BooleanSet._validateState, state_accepted.
  destruct (truthy state);
    [|rewrite (bind_throw (assert_false h)); discriminate].
  rewrite (bind_ok (assert_true h)), (bind_ok (reads_run _ h)).
  destruct (instanceof_Object h state) eqn:Hobj;
    [|rewrite (bind_throw (assert_false h)); discriminate].
  apply instanceof_Object_true in Hobj as (s & o & -> & Hs).
  rewrite (bind_ok (assert_true h)).
  destruct (props o !! "inverted") as [inv|] eqn:Hinv.
  2:{ rewrite (bind_ok (get_prop_None _ _ _ _ Hs Hinv)). discriminate. }
  rewrite (bind_ok (get_prop_Some _ _ _ _ _ Hs Hinv)).
  destruct (is_boolean inv) eqn:Hb;
    [|rewrite (bind_throw (assert_false h)); discriminate].
  destruct inv as [| |b| | |]; try discriminate Hb.
  rewrite (bind_ok (assert_true h)).
  destruct (props o !! "ranges") as [rs|] eqn:Hrs.
  2:{ rewrite (bind_ok (get_prop_None _ _ _ _ Hs Hrs)). discriminate. }
  rewrite (bind_ok (get_prop_Some _ _ _ _ _ Hs Hrs)).
  destruct (negb (is_undefined rs));
    [|rewrite (bind_throw (assert_false h)); discriminate].
  rewrite (bind_ok (assert_true h)).
  rewrite (bind_ok (get_prop_Some _ _ _ _ _ Hs Hrs)).
  rewrite (bind_ok (reads_run _ h)).
  destruct (isArray h rs) eqn:Harr;
    [|rewrite (bind_throw (assert_false h)); discriminate].
  apply isArray_true in Harr as (a & xs & pa & -> & Ha).
  rewrite (bind_ok (assert_true h)).
  rewrite (bind_ok (get_prop_Some _ _ _ _ _ Hs Hrs)).
  rewrite (bind_ok (iterate_array _ _ _ _ Ha)).
  destruct (validate_loop_run xs h) as (r & -> & Hr).
  intros [= ->]. exists s, o, b, a, xs, pa. repeat (split; [done|]).
  by apply Hr.
Qed.

(** ** Independence of a copy *)

(** [_setState] validates, then replaces the property [state] of the
    instance. *)
Lemma setState_run c oc state h :
  h !! c = Some oc →
  BooleanSet._setState (JRef c) state h =
  match BooleanSet._validateState state h with
  | (Ok _, _) =>
      (Ok (JRef c),
       <[c := Object (kind_of oc) (<["state" := state]> (delete "state" (props oc)))]>
         (<[c := Object (kind_of oc) (delete "state" (props oc))]> h))
  | (Throw e, _) => (Throw e, h)
  end.
Proof.
  intros Hc. unfold BooleanSet._setState. rewrite bind_run.
  pose proof (validateState_heap state h) as Hval.
  destruct (BooleanSet._validateState state h) as [[[]|e] hv]; cbn [snd] in Hval;
    subst hv; [|reflexivity].
  rewrite (bind_ok (delete_prop_lookup _ _ _ _ Hc)).
  set (h1 := <[c := _]> h).
  assert (h1 !! c = Some (Object (kind_of oc) (delete "state" (props oc)))) as Hc1
    by (unfold h1; by rewrite lookup_insert_eq).
  by rewrite (bind_ok (set_prop_lookup _ _ _ _ _ Hc1)).
Qed.

(** The copying branch of the constructor: the state of the argument is
    copied into new objects, validated, and on success stored in the new
    instance; nothing else is written. *)
Lemma constructor_copy_run c oc t pt h :
  h !! t = Some (Object BooleanSetInstance pt) →
  h !! c = Some oc →
  ∃ cp hd,
    GenUtils.copyProperties (default undefined (pt !! "state")) h = (Ok cp, hd) ∧
    h ⊆ hd ∧
    BooleanSet.constructor (JRef c) (JRef t) h =
    match BooleanSet._validateState cp hd with
    | (Ok _, _) =>
        (Ok (), <[c := Object (kind_of oc) (<["state" := cp]> (delete "state" (props oc)))]>
                  (<[c := Object (kind_of oc) (delete "state" (props oc))]> hd))
    | (Throw e, _) => (Throw e, hd)
    end.
Proof.
  intros Ht Hc.
  destruct (deep_copy_run (S (size h)) (default undefined (pt !! "state")) h)
    as (cp & hd & Hcopy & Hsub & _).
  change (GenUtils.copyProperties (default undefined (pt !! "state")) h = (Ok cp, hd))
    in Hcopy.
  exists cp, hd. split; [done|]. split; [done|].
  unfold BooleanSet.constructor.
  rewrite (bind_ok (reads_run _ h)). cbn [instanceof_BooleanSet]. rewrite Ht.
  unfold BooleanSet.getState.
  rewrite (bind_ok (get_prop_lookup _ _ "state" _ Ht)). cbn [props].
  rewrite (bind_ok Hcopy), bind_run.
  assert (hd !! c = Some oc) as Hcd by (by eapply lookup_weaken).
  rewrite (setState_run c oc cp hd Hcd).
  by destruct (BooleanSet._validateState cp hd) as [[[]|e] hv].
Qed.

(** [new BooleanSet(...)] changes no object that was there before. *)
Lemma new_ext v h :
  h ⊆ (BooleanSet.new v h).2.
Proof.
  unfold BooleanSet.new.
  destruct (alloc_run (Object BooleanSetInstance ∅) h) as (c & Hc & Halloc).
  rewrite (bind_ok Halloc). set (h1 := <[c := _]> h).
  assert (h ⊆ h1) as Hsub by (by apply insert_subseteq).
  assert (h1 !! c = Some (Object BooleanSetInstance ∅)) as Hc1
    by (unfold h1; by rewrite lookup_insert_eq).
  rewrite bind_run.
  destruct (decide (instanceof_BooleanSet h1 v = true)) as [Hinst|Hinst].
  - destruct v as [| | | | |t]; try discriminate.
    cbn [instanceof_BooleanSet] in Hinst.
    destruct (h1 !! t) as [[[] pt]|] eqn:Ht; try discriminate.
    destruct (constructor_copy_run c _ t pt h1 Ht Hc1) as (cp & hd & _ & Hd & ->).
    destruct (BooleanSet._validateState cp hd) as [[[]|e] hv]; cbn [snd].
    + repeat (apply insert_subseteq_r; [done|]). by etrans.
    + by etrans.
  - apply not_true_is_false in Hinst.
    destruct (truthy v) eqn:Htruthy.
    + unfold BooleanSet.constructor.
      rewrite (bind_ok (reads_run _ h1)), Hinst, Htruthy.
      by rewrite (bind_throw (unbound_identifier_run "state" h1)).
    + destruct (constructor_default_run c v h1 Hinst Htruthy Hc1)
        as (s & a & Hs & Ha & _ & ->). cbn [snd].
      apply insert_subseteq_r; [by eapply lookup_weaken_None|].
      apply insert_subseteq_r; [by eapply lookup_weaken_None|].
      apply insert_subseteq_r; [done|].
      apply insert_subseteq_r; [by eapply lookup_weaken_None|done].
Qed.

(** A successful [copy()] returns a new instance whose state object and
    range array are new as well. *)
Lemma copy_Ok_inv t pt h C h1 :
  h !! t = Some (Object BooleanSetInstance pt) →
  BooleanSet.copy (JRef t) h = (Ok C, h1) →
  ∃ c s a,
    C = JRef c ∧ h !! c = None ∧ h !! s = None ∧ h !! a = None ∧
    h ⊆ h1 ∧ set_at h1 c s a.
Proof.
  intros Ht. unfold BooleanSet.copy, BooleanSet.new.
  destruct (alloc_run (Object BooleanSetInstance ∅) h) as (c & Hc & Halloc).
  rewrite (bind_ok Halloc). set (hc := <[c := _]> h).
  assert (h ⊆ hc) as Hsub by (by apply insert_subseteq).
  assert (hc !! c = Some (Object BooleanSetInstance ∅)) as Hcc
    by (unfold hc; by rewrite lookup_insert_eq).
  assert (hc !! t = Some (Object BooleanSetInstance pt)) as Htc
    by (by eapply lookup_weaken).
  unfold BooleanSet.constructor.
  rewrite bind_run, (bind_ok (reads_run _ hc)).
  cbn [instanceof_BooleanSet]. rewrite Htc. unfold BooleanSet.getState.
  rewrite (bind_ok (get_prop_lookup _ _ "state" _ Htc)). cbn [props].
  set (st := default undefined (pt !! "state")).
  destruct (deep_copy_run (S (size hc)) st hc)
    as (cp & hd & Hcopy & Hd & Hout & Hid & Hobj).
  change (GenUtils.copyProperties st hc = (Ok cp, hd)) in Hcopy.
  rewrite (bind_ok Hcopy), bind_run.
  assert (hd !! c = Some (Object BooleanSetInstance ∅)) as Hcd
    by (by eapply lookup_weaken).
  rewrite (setState_run c _ cp hd Hcd).
  destruct (BooleanSet._validateState cp hd) as [[[]|e] hv] eqn:Hval;
    [|discriminate].
  pose proof (validateState_heap cp hd) as Hhv. rewrite Hval in Hhv.
  cbn [snd] in Hhv. subst hv.
  apply validateState_Ok_inv in Hval
    as (s & o & b & a & xs & pa & -> & Hs & Hinv & Hrs & Ha & _).
  cbn [kind_of props]. intros [= <- <-].
  assert (hc !! s = None) as Hsc by (by apply Hout).
  (* the copied state is the copy of a live object *)
  assert ((∃ l o, st = JRef l ∧ hc !! l = Some o) ∨
          ¬ (∃ l o, st = JRef l ∧ hc !! l = Some o))
    as [(l & o0 & Hst & Hl)|Hdead].
  { destruct st as [| | | | |l]; try (right; by intros (? & ? & [=] & _)).
    destruct (hc !! l) as [o0|] eqn:E; [left; by exists l, o0|].
    right. intros (l' & o' & [= <-] & ?). congruence. }
  2:{ destruct (Hid Hdead) as [_ ->]. congruence. }
  destruct (Hobj l o0) as (s' & o' & [= <-] & Hs' & _ & Hvals); [done..|].
  rewrite Hs in Hs'. injection Hs' as <-.
  assert (hc !! a = None) as Hac.
  { apply (Hvals "ranges" (JRef a)); [|done..].
    assert (size hc ≠ 0%nat); [|lia].
    intros ->%map_size_empty_inv. by rewrite lookup_empty in Hcc. }
  assert (c ≠ s) as Hcs by congruence.
  assert (c ≠ a) as Hca by congruence.
  exists c, s, a. split; [done|]. split; [done|].
  split; [by eapply lookup_weaken_None|].
  split; [by eapply lookup_weaken_None|]. split.
  { repeat (apply insert_subseteq_r; [done|]). by etrans. }
  split; [done|]. split; [|split].
  - eexists. split; [apply lookup_insert_eq|]. apply lookup_insert_eq.
  - exists (kind_of o), (props o). rewrite !lookup_insert_ne by done.
    by destruct o.
  - exists xs, pa. by rewrite !lookup_insert_ne.
Qed.

(** [get] only reads. *)
Lemma get_heap this idx h : (BooleanSet.get this idx h).2 = h.
Proof.
  unfold BooleanSet.get. destruct (index_ok_run idx h) as [b Hb].
  rewrite (bind_ok Hb). destruct b; [|reflexivity].
  rewrite (bind_ok (assert_true h)), bind_run.
  run_get_prop this "state" h r1 E1. destruct r1 as [st|e]; [|reflexivity].
  rewrite bind_run.
  run_get_prop st "ranges" h r2 E2. destruct r2 as [rs|e]; [|reflexivity].
  rewrite bind_run.
  run_iterate rs h r3 E3. destruct r3 as [[|x xs]|e]; [| |reflexivity].
  - cbn [for_of]. rewrite (bind_ok (mret_run false h)), (bind_ok E1), bind_run.
    run_get_prop st "inverted" h r4 E4. by destruct r4.
  - by rewrite (bind_throw (get_loop_first x xs false h)).
Qed.

(** [set] with an argument it rejects, or with an index, writes
    nothing. *)
Lemma set_rejected_heap this val idx h :
  is_boolean val = false ∨ is_nullish idx = false →
  (BooleanSet.set this val idx h).2 = h.
Proof.
  intros Hrej. unfold BooleanSet.set. rewrite bind_run.
  destruct (is_boolean val); [|reflexivity]. cbn [assert mret M_ret].
  destruct Hrej as [?| ->]; [done|].
  destruct (index_ok_run idx h) as [b Hb]. rewrite (bind_ok Hb).
  by destruct b.
Qed.

(** The calls other than [set], [clear] and [copy] write nothing. *)
Lemma invoke_reads this c h :
  match c with
  | CallSet _ _ | CallClear | CallCopy => True
  | _ => (invoke this c h).2 = h
  end.
Proof.
  destruct c; try done; cbn [invoke]; try reflexivity.
  - apply get_prop_heap.
  - apply get_heap.
  - unfold BooleanSet.allSet, BooleanSet.allSet_via. rewrite bind_run.
    by destruct (is_boolean val).
  - unfold BooleanSet.anySet, BooleanSet.anySet_via. rewrite bind_run.
    by destruct (is_boolean val).
  - unfold BooleanSet.toArray. rewrite bind_run.
    destruct (is_undefined end_); [|reflexivity].
    by destruct (length_throws this h) as [e ->].
  - by destruct (length_throws this h) as [e ->].
Qed.

(** Calls on a copy keep its three objects in shape and never write to an
    object of the heap the copy was taken from. *)
Lemma invoke_on_copy h0 c s a call h :
  h0 !! c = None → h0 !! s = None → h0 !! a = None →
  h0 ⊆ h → set_at h c s a →
  h0 ⊆ (invoke (JRef c) call h).2 ∧ set_at (invoke (JRef c) call h).2 c s a.
Proof.
  intros Hc Hs Ha Hsub Hset.
  assert (∀ (b : bool) idx, is_nullish idx = true →
    h0 ⊆ (BooleanSet.set (JRef c) (JBool b) idx h).2 ∧
    set_at (BooleanSet.set (JRef c) (JBool b) idx h).2 c s a) as Hsetall.
  { intros b idx Hidx.
    destruct (set_all_run h c s a b idx Hidx Hset) as (h' & -> & Hset' & Hframe & _).
    cbn [snd]. split; [|done].
    apply map_subseteq_spec. intros l o Hl.
    rewrite Hframe by congruence. by eapply lookup_weaken. }
  pose proof (invoke_reads (JRef c) call h) as Hreads.
  destruct call as [| | |val idx| | | | | | | | | |]; try (by rewrite Hreads).
  - (* clear *) by apply (Hsetall false undefined).
  - (* copy *)
    cbn [invoke]. unfold BooleanSet.copy.
    pose proof (new_ext (JRef c) h) as Hext. split; [by etrans|].
    destruct Hset as (Hcs & (pt & Hpt & Hst) & (ks & ps & Hps & Hrs) & (xs & pa & Hxs)).
    split; [done|]. split; [|split].
    + exists pt. split; [by eapply lookup_weaken|done].
    + exists ks, ps. split; [by eapply lookup_weaken|done].
    + exists xs, pa. by eapply lookup_weaken.
  - (* set *)
    cbn [invoke].
    destruct (is_boolean val) eqn:Hval;
      [|by rewrite set_rejected_heap by (by left)].
    destruct (is_nullish idx) eqn:Hidx;
      [|by rewrite set_rejected_heap by (by right)].
    destruct val as [| |b| | |]; try discriminate. by apply Hsetall.
Qed.

Lemma run_calls_on_copy h0 c s a calls h :
  h0 !! c = None → h0 !! s = None → h0 !! a = None →
  h0 ⊆ h → set_at h c s a →
  h0 ⊆ run_calls (JRef c) calls h.
Proof.
  intros Hc Hs Ha. revert h. induction calls as [|call calls IH]; intros h Hsub Hset.
  - done.
  - cbn [run_calls foldl].
    destruct (invoke_on_copy h0 c s a call h) as [Hsub' Hset']; try done.
    by apply IH.
Qed.

(** Reading through live values gives the same in a larger heap. *)
Lemma get_prop_weaken v k h h' :
  live h v → h ⊆ h' → (get_prop v k h').1 = (get_prop v k h).1.
Proof.
  intros Hlive Hsub. destruct v as [| | | | |l]; try reflexivity.
  destruct Hlive as [o Hl]. unfold get_prop.
  by rewrite Hl, (lookup_weaken _ _ _ _ Hl Hsub).
Qed.

Lemma get_prop_live v k x h :
  closed h → live h v → get_prop v k h = (Ok x, h) → live h x.
Proof.
  intros Hclosed Hlive. destruct v as [| | | | |l]; try (by intros [= <-]).
  destruct Hlive as [o Hl]. unfold get_prop. rewrite Hl. intros [= <-].
  destruct (props o !! k) as [x|] eqn:Hk; [|done].
  destruct (Hclosed l o Hl) as [Hprops _]. by apply (Hprops k x).
Qed.

Lemma iterate_weaken v h h' :
  live h v → h ⊆ h' → (iterate v h').1 = (iterate v h).1.
Proof.
  intros Hlive Hsub. destruct v as [| | | | |l]; try reflexivity.
  destruct Hlive as [o Hl]. unfold iterate.
  rewrite Hl, (lookup_weaken _ _ _ _ Hl Hsub).
  by destruct o as [[| |xs] ps].
Qed.

Lemma iterate_live v xs h :
  closed h → iterate v h = (Ok xs, h) → Forall (live h) xs.
Proof.
  intros Hclosed. destruct v as [| | | | |l]; try discriminate.
  - intros [= <-]. apply Forall_fmap, Forall_true. done.
  - unfold iterate. destruct (h !! l) as [[[| |ys] ps]|] eqn:Hl; try discriminate.
    intros [= <-]. by destruct (Hclosed l _ Hl) as [_ Helems].
Qed.

Lemma index_ok_weaken idx h h' :
  (BooleanSet.index_ok idx h').1 = (BooleanSet.index_ok idx h).1.
Proof.
  unfold BooleanSet.index_ok.
  destruct idx as [| | |[q| | |]| |]; try reflexivity.
  by destruct (GenUtils.isInt _).
Qed.

(** [get] on a live set of a closed heap answers the same in every larger
    heap. *)
Lemma get_weaken this idx h h' :
  closed h → live h this → h ⊆ h' →
  (BooleanSet.get this idx h').1 = (BooleanSet.get this idx h).1.
Proof.
  intros Hclosed Hlive Hsub. unfold BooleanSet.get.
  destruct (index_ok_run idx h) as [b Hb].
  destruct (index_ok_run idx h') as [b' Hb'].
  assert (b' = b) as ->.
  { pose proof (index_ok_weaken idx h h') as Hw. rewrite Hb, Hb' in Hw.
    by injection Hw. }
  rewrite (bind_ok Hb), (bind_ok Hb'). destruct b; [|reflexivity].
  rewrite (bind_ok (assert_true h)), (bind_ok (assert_true h')).
  (* this.state *)
  pose proof (get_prop_weaken this "state" h h' Hlive Hsub) as Hw1.
  run_get_prop this "state" h r1 E1. run_get_prop this "state" h' r1' E1'.
  cbn [fst] in Hw1. subst r1'. destruct r1 as [st|e];
    [|by rewrite (bind_throw E1), (bind_throw E1')].
  rewrite (bind_ok E1), (bind_ok E1').
  pose proof (get_prop_live _ _ _ _ Hclosed Hlive E1) as Hst.
  (* state.ranges *)
  pose proof (get_prop_weaken st "ranges" h h' Hst Hsub) as Hw2.
  run_get_prop st "ranges" h r2 E2. run_get_prop st "ranges" h' r2' E2'.
  cbn [fst] in Hw2. subst r2'. destruct r2 as [rs|e];
    [|by rewrite (bind_throw E2), (bind_throw E2')].
  rewrite (bind_ok E2), (bind_ok E2').
  pose proof (get_prop_live _ _ _ _ Hclosed Hst E2) as Hrs.
  (* the loop *)
  pose proof (iterate_weaken rs h h' Hrs Hsub) as Hw3.
  run_iterate rs h r3 E3. run_iterate rs h' r3' E3'.
  cbn [fst] in Hw3. subst r3'. destruct r3 as [xs|e];
    [|by rewrite (bind_throw E3), (bind_throw E3')].
  rewrite (bind_ok E3), (bind_ok E3').
  pose proof (iterate_live _ _ _ Hclosed E3) as Hxs.
  destruct xs as [|x xs].
  - cbn [for_of].
    rewrite (bind_ok (mret_run false h)), (bind_ok (mret_run false h')).
    rewrite (bind_ok E1), (bind_ok E1').
    pose proof (get_prop_weaken st "inverted" h h' Hst Hsub) as Hw4.
    rewrite !bind_run.
    run_get_prop st "inverted" h r4 E4. run_get_prop st "inverted" h' r4' E4'.
    cbn [fst] in Hw4. subst r4'. by destruct r4.
  - rewrite (bind_throw (get_loop_first x xs false h)).
    rewrite (bind_throw (get_loop_first x xs false h')). cbn [fst].
    rewrite (get_prop_weaken x "start" h h'); [done| |done].
    by inversion Hxs.
Qed.

(** C6: a copy shares no state with the original: on a closed heap, after
    [copy()] of a set has returned, whatever sequence of public calls is
    run on the copy, [get(i)] on the original answers at every index what
    it answered before those calls. *)
Theorem copy_independent h this copied h1 calls idx :
  closed h →
  instanceof_BooleanSet h this = true →
  BooleanSet.copy this h = (Ok copied, h1) →
  (BooleanSet.get this idx (run_calls copied calls h1)).1 =
  (BooleanSet.get this idx h1).1.
Proof.
  intros Hclosed Hinst Hcopy.
  destruct this as [| | | | |t]; try discriminate.
  cbn [instanceof_BooleanSet] in Hinst.
  destruct (h !! t) as [[[] pt]|] eqn:Ht; try discriminate.
  destruct (copy_Ok_inv t pt h copied h1 Ht Hcopy)
    as (c & s & a & -> & Hc & Hs & Ha & Hsub & Hset).
  pose proof (run_calls_on_copy h c s a calls h1 Hc Hs Ha Hsub Hset) as Hsub'.
  assert (live h (JRef t)) as Hlive by (by eexists).
  rewrite (get_weaken (JRef t) idx h h1) by done.
  by rewrite (get_weaken (JRef t) idx h (run_calls (JRef c) calls h1)).
Qed.

(** * Further properties of the class *)

(** ** clear() and set(val) on any set *)

(** X1: [clear()] on a set in shape, whatever its ranges and its
    [state.inverted] were, returns [undefined] (not the instance), leaves
    no stored range and no [state.inverted], and from then on [get(n)]
    returns [undefined] at every index. *)
Theorem clear_resets_to_undefined h t s a :
  set_at h t s a →
  ∃ h',
    BooleanSet.clear (JRef t) h = (Ok undefined, h') ∧
    stored_ranges h' (JRef t) = Some [] ∧
    stored_inverted h' (JRef t) = Some undefined ∧
    ∀ n, BooleanSet.get (JRef t) (index n) h' = (Ok undefined, h').
Proof.
  intros Hset. unfold BooleanSet.clear.
  destruct (set_all_run h t s a false undefined eq_refl Hset)
    as (h' & Hrun & Hset' & _ & Hiter & Hinv & _).
  exists h'. split; [done|].
  pose proof (set_at_state _ _ _ _ Hset') as Hst.
  pose proof (set_at_ranges _ _ _ _ Hset') as Hrs.
  split; [|split].
  - unfold stored_ranges. by rewrite (bind_ok Hst), (bind_ok Hrs), Hiter.
  - unfold stored_inverted. by rewrite (bind_ok Hst), Hinv.
  - intros n. by apply (get_on_cleared h' t s a n).
Qed.

(** The heap [set(val)] leaves, when the instance, its state object and
    its range array are three objects. *)
Lemma set_all_heap h t s a pt ks ps xs pa (b : bool) idx :
  is_nullish idx = true →
  t ≠ s → t ≠ a → s ≠ a →
  h !! t = Some (Object BooleanSetInstance pt) →
  pt !! "state" = Some (JRef s) →
  h !! s = Some (Object ks ps) →
  ps !! "ranges" = Some (JRef a) →
  h !! a = Some (Object (Array xs) pa) →
  BooleanSet.set (JRef t) (JBool b) idx h =
  (Ok undefined,
   let h2 := <[a := Object (Array []) pa]>
               (<[s := Object ks (delete "inverted" ps)]> h) in
   if b then <[t := Object BooleanSetInstance (<["inverted" := JBool true]> pt)]> h2
   else h2).
Proof.
  intros Hidx Hts Hta Hsa Ht Hpt Hs Hps Ha.
  unfold BooleanSet.set. cbn [is_boolean].
  rewrite (bind_ok (assert_true h)), Hidx.
  rewrite (bind_ok (get_prop_Some _ _ _ _ _ Ht Hpt)).
  rewrite (bind_ok (delete_prop_lookup _ _ "inverted" _ Hs)).
  cbn [kind_of props]. set (h1 := <[s := _]> h).
  assert (h1 !! t = Some (Object BooleanSetInstance pt)) as Ht1
    by (unfold h1; by rewrite lookup_insert_ne).
  assert (h1 !! s = Some (Object ks (delete "inverted" ps))) as Hs1
    by (unfold h1; by rewrite lookup_insert_eq).
  assert (h1 !! a = Some (Object (Array xs) pa)) as Ha1
    by (unfold h1; by rewrite lookup_insert_ne).
  rewrite (bind_ok (get_prop_Some _ _ _ _ _ Ht1 Hpt)).
  assert (delete "inverted" ps !! "ranges" = Some (JRef a)) as Hps1
    by (by rewrite lookup_delete_ne).
  rewrite (bind_ok (get_prop_Some _ _ _ _ _ Hs1 Hps1)).
  rewrite (bind_ok (set_length_zero_array _ _ _ _ Ha1)).
  set (h2 := <[a := _]> h1).
  assert (h2 !! t = Some (Object BooleanSetInstance pt)) as Ht2
    by (unfold h2; by rewrite lookup_insert_ne).
  destruct b; cbn [truthy].
  - by rewrite (bind_ok (set_prop_lookup _ _ "inverted" (JBool true) _ Ht2)).
  - by rewrite (bind_ok (mret_run () h2)).
Qed.

(** X2: [set(val)] without an index is idempotent: called a second time
    with the same value it returns [undefined] again and leaves the heap
    exactly as the first call left it. *)
Theorem set_all_idempotent h t s a (b : bool) idx idx' :
  set_at h t s a → s ≠ a →
  is_nullish idx = true → is_nullish idx' = true →
  BooleanSet.set (JRef t) (JBool b) idx'
    (BooleanSet.set (JRef t) (JBool b) idx h).2 =
  (Ok undefined, (BooleanSet.set (JRef t) (JBool b) idx h).2).
Proof.
  intros Hset Hsa Hidx Hidx'. pose proof (set_at_ne _ _ _ _ Hset) as Hta.
  destruct Hset as (Hts & (pt & Ht & Hpt) & (ks & ps & Hs & Hps) & (xs & pa & Ha)).
  rewrite (set_all_heap h t s a pt ks ps xs pa b idx) by done.
  cbn [snd]. cbv zeta.
  set (h2 := <[a := Object (Array []) pa]>
               (<[s := Object ks (delete "inverted" ps)]> h)).
  assert (h2 !! s = Some (Object ks (delete "inverted" ps))) as Hs2
    by (unfold h2; by rewrite lookup_insert_ne, lookup_insert_eq).
  assert (h2 !! a = Some (Object (Array []) pa)) as Ha2
    by (unfold h2; by rewrite lookup_insert_eq).
  assert (h2 !! t = Some (Object BooleanSetInstance pt)) as Ht2
    by (unfold h2; by rewrite !lookup_insert_ne).
  assert (delete "inverted" ps !! "ranges" = Some (JRef a)) as Hps2
    by (by rewrite lookup_delete_ne).
  destruct b.
  - set (h3 := <[t := _]> h2).
    rewrite (set_all_heap h3 t s a (<["inverted" := JBool true]> pt) ks
               (delete "inverted" ps) [] pa true idx'); try done.
    + cbv zeta. f_equal. rewrite delete_delete_eq, insert_insert_eq.
      rewrite (insert_id h3 s) by (unfold h3; by rewrite lookup_insert_ne).
      rewrite (insert_id h3 a) by (unfold h3; by rewrite lookup_insert_ne).
      apply insert_id. unfold h3. by rewrite lookup_insert_eq.
    + unfold h3. by rewrite lookup_insert_eq.
    + by rewrite lookup_insert_ne.
    + unfold h3. by rewrite lookup_insert_ne.
    + unfold h3. by rewrite lookup_insert_ne.
  - rewrite (set_all_heap h2 t s a pt ks (delete "inverted" ps) [] pa false idx');
      try done.
    cbv zeta. f_equal. rewrite delete_delete_eq.
    rewrite (insert_id h2 s) by done. by apply insert_id.
Qed.

(** ** What the public calls can and cannot change *)

Lemma invoke_heap_unless_writes this c h :
  writes c = false → (invoke this c h).2 = h.
Proof.
  intros Hw. pose proof (invoke_reads this c h) as Hreads.
  destruct c as [| | |val idx| | | | | | | | | |]; try done.
  cbn [writes] in Hw. cbn [invoke]. apply set_rejected_heap.
  destruct (is_boolean val); [right|by left]. by destruct (is_nullish idx).
Qed.

(** X3: only [set] with a boolean and no index, [clear] and [copy] can
    write: every other call, whatever its arguments and whether it returns
    or throws, leaves the heap exactly as it was. *)
Theorem only_set_clear_copy_write this c h :
  writes c = false →
  (invoke this c h).2 = h.
Proof. apply invoke_heap_unless_writes. Qed.

(** ** A set driven through its public methods only *)

Lemma cleared_at_weaken h h' t s a :
  h ⊆ h' → cleared_at h t s a → cleared_at h' t s a.
Proof.
  intros Hsub ((Hts & (pt & Ht & Hpt) & (ks & ps & Hs & Hps) & (xs & pa & Ha))
               & Hsa & (ks' & ps' & Hs' & Hinv) & (pa' & Ha')).
  split; [|split; [done|split]].
  - split; [done|]. split; [|split].
    + exists pt. split; [by eapply lookup_weaken|done].
    + exists ks, ps. split; [by eapply lookup_weaken|done].
    + exists xs, pa. by eapply lookup_weaken.
  - exists ks', ps'. split; [by eapply lookup_weaken|done].
  - exists pa'. by eapply lookup_weaken.
Qed.

(** [set(val)] leaves a set cleared. *)
Lemma set_all_cleared h t s a (b : bool) idx :
  is_nullish idx = true → set_at h t s a → s ≠ a →
  cleared_at (BooleanSet.set (JRef t) (JBool b) idx h).2 t s a.
Proof.
  intros Hidx Hset Hsa. pose proof (set_at_ne _ _ _ _ Hset) as Hta.
  destruct Hset as (Hts & (pt & Ht & Hpt) & (ks & ps & Hs & Hps) & (xs & pa & Ha)).
  rewrite (set_all_heap h t s a pt ks ps xs pa b idx) by done.
  cbn [snd]. cbv zeta.
  set (h2 := <[a := Object (Array []) pa]>
               (<[s := Object ks (delete "inverted" ps)]> h)).
  assert (h2 !! s = Some (Object ks (delete "inverted" ps))) as Hs2
    by (unfold h2; by rewrite lookup_insert_ne, lookup_insert_eq).
  assert (h2 !! a = Some (Object (Array []) pa)) as Ha2
    by (unfold h2; by rewrite lookup_insert_eq).
  assert (h2 !! t = Some (Object BooleanSetInstance pt)) as Ht2
    by (unfold h2; by rewrite !lookup_insert_ne).
  assert (delete "inverted" ps !! "ranges" = Some (JRef a)) as Hps2
    by (by rewrite lookup_delete_ne).
  assert (delete "inverted" ps !! "inverted" = None) as Hinv2
    by apply lookup_delete_eq.
  destruct b.
  - split; [|split; [done|split]].
    + split; [done|]. split; [|split].
      * eexists. split; [apply lookup_insert_eq|]. by rewrite lookup_insert_ne.
      * exists ks, (delete "inverted" ps). by rewrite lookup_insert_ne.
      * exists [], pa. by rewrite lookup_insert_ne.
    + exists ks, (delete "inverted" ps). by rewrite lookup_insert_ne.
    + exists pa. by rewrite lookup_insert_ne.
  - split; [|split; [done|split]].
    + split; [done|]. split; [|split].
      * by exists pt.
      * by exists ks, (delete "inverted" ps).
      * by exists [], pa.
    + by exists ks, (delete "inverted" ps).
    + by exists pa.
Qed.

(** Every public call keeps a cleared set cleared. *)
Lemma invoke_cleared h t s a c :
  cleared_at h t s a → cleared_at (invoke (JRef t) c h).2 t s a.
Proof.
  intros Hcl.
  destruct (writes c) eqn:Hw; [|by rewrite invoke_heap_unless_writes].
  destruct c as [| | |val idx| | | | | | | | | |]; try discriminate.
  - cbn [invoke]. unfold BooleanSet.clear.
    destruct Hcl as (Hset & Hsa & _). by apply set_all_cleared.
  - cbn [invoke]. unfold BooleanSet.copy.
    apply (cleared_at_weaken h); [apply new_ext|done].
  - cbn [invoke]. cbn [writes] in Hw. apply andb_true_iff in Hw as [Hval Hidx].
    destruct val as [| |b| | |]; try discriminate.
    destruct Hcl as (Hset & Hsa & _). by apply set_all_cleared.
Qed.

Lemma run_calls_cleared h t s a calls :
  cleared_at h t s a → cleared_at (run_calls (JRef t) calls h) t s a.
Proof.
  revert h. induction calls as [|c calls IH]; intros h Hcl; [done|].
  cbn [run_calls foldl]. by apply IH, invoke_cleared.
Qed.

Lemma new_undefined_cleared h :
  ∃ t s a h1,
    BooleanSet.new undefined h = (Ok (JRef t), h1) ∧ cleared_at h1 t s a.
Proof.
  destruct (new_undefined_run h) as (t & s & a & h1 & Hnew & _ & Hset & Ht & Hs & Ha).
  exists t, s, a, h1. split; [done|]. split; [done|]. split; [congruence|]. split.
  - exists Plain, {["ranges" := JRef a]}. split; [done|].
    by apply lookup_singleton_ne.
  - by exists ∅.
Qed.

Lemma get_cleared h t s a n :
  cleared_at h t s a →
  BooleanSet.get (JRef t) (index n) h = (Ok undefined, h).
Proof.
  intros (Hset & _ & (ks & ps & Hs & Hinv) & (pa & Ha)).
  apply (get_on_cleared h t s a n Hset).
  - by apply (iterate_array _ _ _ _ Ha).
  - by apply (get_prop_None _ _ _ _ Hs Hinv).
Qed.

(** X4: a set that is only driven through its public methods never
    answers a boolean: after [new BooleanSet()] and any sequence of public
    calls with any arguments, [get(n)] returns [undefined] at every
    index. *)
Theorem public_calls_never_make_get_boolean h calls n :
  ∃ this h1,
    BooleanSet.new undefined h = (Ok this, h1) ∧
    BooleanSet.get this (index n) (run_calls this calls h1) =
    (Ok undefined, run_calls this calls h1).
Proof.
  destruct (new_undefined_cleared h) as (t & s & a & h1 & Hnew & Hcl).
  exists (JRef t), h1. split; [done|].
  by apply (get_cleared _ t s a), run_calls_cleared.
Qed.

(** X5: nor can it ever be copied: after [new BooleanSet()] and any
    sequence of public calls, [copy()] throws the AssertionError of
    [_validateState], because no public method gives [state.inverted] a
    boolean. *)
Theorem public_calls_never_make_copy_work h calls :
  ∃ this h1 h2,
    BooleanSet.new undefined h = (Ok this, h1) ∧
    BooleanSet.copy this (run_calls this calls h1) = (Throw AssertionError, h2).
Proof.
  destruct (new_undefined_cleared h) as (t & s & a & h1 & Hnew & Hcl).
  pose proof (run_calls_cleared h1 t s a calls Hcl) as Hcl'.
  destruct Hcl' as ((_ & (pt & Ht & Hpt) & _) & _ & (ks & ps & Hs & Hinv) & _).
  destruct (copy_inverted_absent t pt s _ _ Ht Hpt Hs Hinv) as (h2 & Hcopy).
  by exists (JRef t), h1, h2.
Qed.

(** The property [inverted] that [set(true)] writes on the instance stays
    through every public call. *)
Lemma invoke_keeps_own_inverted h t s a c :
  set_at h t s a →
  get_prop (JRef t) "inverted" h = (Ok (JBool true), h) →
  set_at (invoke (JRef t) c h).2 t s a ∧
  get_prop (JRef t) "inverted" (invoke (JRef t) c h).2 =
  (Ok (JBool true), (invoke (JRef t) c h).2).
Proof.
  intros Hset Hown.
  assert (∀ (b : bool) idx, is_nullish idx = true →
    set_at (BooleanSet.set (JRef t) (JBool b) idx h).2 t s a ∧
    get_prop (JRef t) "inverted" (BooleanSet.set (JRef t) (JBool b) idx h).2 =
    (Ok (JBool true), (BooleanSet.set (JRef t) (JBool b) idx h).2)) as Hsetall.
  { intros b idx Hidx.
    destruct (set_all_run h t s a b idx Hidx Hset)
      as (h' & -> & Hset' & _ & _ & _ & Hown').
    cbn [snd]. split; [done|]. rewrite Hown in Hown'. cbn [fst] in Hown'.
    rewrite get_prop_run, Hown'. by destruct b. }
  destruct (writes c) eqn:Hw; [|by rewrite invoke_heap_unless_writes].
  destruct c as [| | |val idx| | | | | | | | | |]; try discriminate.
  - by apply (Hsetall false undefined).
  - cbn [invoke]. unfold BooleanSet.copy.
    pose proof (new_ext (JRef t) h) as Hext.
    destruct Hset as (Hts & (pt & Ht & Hpt) & (ks & ps & Hs & Hps) & (xs & pa & Ha)).
    split.
    + split; [done|]. split; [|split].
      * exists pt. split; [by eapply lookup_weaken|done].
      * exists ks, ps. split; [by eapply lookup_weaken|done].
      * exists xs, pa. by eapply lookup_weaken.
    + rewrite (get_prop_lookup _ _ _ _ Ht) in Hown. injection Hown as Hown.
      rewrite (get_prop_lookup _ _ _ _ (lookup_weaken _ _ _ _ Ht Hext)).
      cbn [props] in *. by rewrite Hown.
  - cbn [invoke]. cbn [writes] in Hw. apply andb_true_iff in Hw as [Hval Hidx].
    destruct val as [| |b| | |]; try discriminate. by apply Hsetall.
Qed.

(** X6: nothing takes back the [true] that [set(true)] writes on the
    instance: after [set(true)] on a set in shape, whatever public calls
    follow ([clear()] and [set(false)] among them), the property
    [inverted] of the instance itself still reads [true]. *)
Theorem set_true_flag_is_never_reset h t s a calls :
  set_at h t s a →
  let h1 := (BooleanSet.set (JRef t) (JBool true) undefined h).2 in
  get_prop (JRef t) "inverted" (run_calls (JRef t) calls h1) =
  (Ok (JBool true), run_calls (JRef t) calls h1).
Proof.
  intros Hset h1.
  assert (set_at h1 t s a ∧
          get_prop (JRef t) "inverted" h1 = (Ok (JBool true), h1)) as Hinv.
  { unfold h1.
    destruct (set_all_run h t s a true undefined eq_refl Hset)
      as (h' & -> & Hset' & _ & _ & _ & Hown').
    cbn [snd]. split; [done|]. by rewrite get_prop_run, Hown'. }
  clearbody h1. revert h1 Hinv.
  induction calls as [|c calls IH]; intros h1 [Hset1 Hown1]; [done|].
  cbn [run_calls foldl]. by apply IH, invoke_keeps_own_inverted.
Qed.

(** ** State validation and _setState *)

(** X7: [_validateState] only reads: whether it accepts the state or
    throws, the heap is exactly what it was. *)
Theorem validateState_reads_only state h :
  ∃ r, BooleanSet._validateState state h = (r, h).
Proof.
  exists (BooleanSet._validateState state h).1.
  rewrite <- (validateState_heap state h) at 3.
  by destruct (BooleanSet._validateState state h).
Qed.

(** X8: [_setState(state)] on a live instance is all or nothing.  When
    validation throws, [_setState] throws the same error and writes
    nothing.  When validation passes, it returns the instance,
    [getState()] then returns [state] itself (the reference, not a copy),
    and no other object has changed. *)
Theorem setState_all_or_nothing t o state h :
  h !! t = Some o →
  match BooleanSet._validateState state h with
  | (Ok _, _) =>
      ∃ h', BooleanSet._setState (JRef t) state h = (Ok (JRef t), h') ∧
            BooleanSet.getState (JRef t) h' = (Ok state, h') ∧
            ∀ l, l ≠ t → h' !! l = h !! l
  | (Throw e, _) => BooleanSet._setState (JRef t) state h = (Throw e, h)
  end.
Proof.
  intros Ht. rewrite (setState_run t o state h Ht).
  destruct (BooleanSet._validateState state h) as [[[]|e] hv]; [|done].
  eexists. split; [reflexivity|]. split.
  - unfold BooleanSet.getState.
    eapply get_prop_Some; [apply lookup_insert_eq|].
    cbn [props]. apply lookup_insert_eq.
  - intros l Hl. by rewrite !lookup_insert_ne.
Qed.

(** ** The constructor *)

(** X9: the constructor given anything truthy that is not a BooleanSet (a
    state object "to initialize by reference", a number, a string, true)
    throws the ReferenceError of the unbound identifier [state]; the
    objects of the heap are left as they were. *)
Theorem constructor_with_state_throws v h :
  live h v →
  instanceof_BooleanSet h v = false →
  truthy v = true →
  ∃ h', BooleanSet.new v h = (Throw (ReferenceError "state"), h') ∧ h ⊆ h'.
Proof.
  intros Hlive Hinst Htruthy. unfold BooleanSet.new.
  destruct (alloc_run (Object BooleanSetInstance ∅) h) as (c & Hc & Halloc).
  rewrite (bind_ok Halloc). set (h1 := <[c := _]> h).
  assert (instanceof_BooleanSet h1 v = false) as Hinst1.
  { destruct v as [| | | | |l]; try done.
    destruct Hlive as [o Hl]. cbn [instanceof_BooleanSet] in *.
    unfold h1. rewrite lookup_insert_ne by congruence. done. }
  exists h1. split; [|by apply insert_subseteq].
  unfold BooleanSet.constructor.
  rewrite bind_run, (bind_ok (reads_run _ h1)), Hinst1, Htruthy.
  by rewrite (bind_throw (unbound_identifier_run "state" h1)).
Qed.

(** X10: the constructor given anything falsy ([undefined], [null],
    [false], [0], [NaN], the empty string) builds the default set: a new
    instance with an empty range collection and no [state.inverted],
    beside the objects of the heap, which are left as they were. *)
Theorem constructor_with_falsy_argument v h :
  truthy v = false →
  ∃ t h',
    BooleanSet.new v h = (Ok (JRef t), h') ∧
    h !! t = None ∧ h ⊆ h' ∧
    stored_ranges h' (JRef t) = Some [] ∧
    stored_inverted h' (JRef t) = Some undefined.
Proof.
  intros Htruthy. unfold BooleanSet.new.
  destruct (alloc_run (Object BooleanSetInstance ∅) h) as (t & Ht & Halloc).
  rewrite (bind_ok Halloc). set (h1 := <[t := _]> h).
  assert (instanceof_BooleanSet h1 v = false) as Hinst
    by (by destruct v).
  destruct (constructor_default_run t v h1 Hinst Htruthy)
    as (s & a & Hs & Ha & Hsa & Hrun); [unfold h1; apply lookup_insert_eq|].
  rewrite (bind_ok Hrun).
  assert (t ≠ s) as Hts
    by (intros ->; unfold h1 in Hs; by rewrite lookup_insert_eq in Hs).
  assert (t ≠ a) as Hta
    by (intros ->; unfold h1 in Ha; by rewrite lookup_insert_eq in Ha).
  unfold h1 in Hs, Ha. rewrite lookup_insert_ne in Hs, Ha by done.
  exists t. eexists. split; [reflexivity|]. split; [done|].
  set (h' := <[s := _]> _).
  assert (h' !! t = Some (Object BooleanSetInstance {["state" := JRef s]})) as Ht3
    by (unfold h'; by rewrite lookup_insert_ne, lookup_insert_ne, lookup_insert_eq).
  assert (h' !! s = Some (Object Plain {["ranges" := JRef a]})) as Hs3
    by (unfold h'; by rewrite lookup_insert_eq).
  assert (h' !! a = Some (Object (Array []) ∅)) as Ha3
    by (unfold h'; by rewrite lookup_insert_ne, lookup_insert_eq).
  assert (get_prop (JRef t) "state" h' = (Ok (JRef s), h')) as Hst
    by (apply (get_prop_Some _ _ _ _ _ Ht3), lookup_singleton_eq).
  split; [|split].
  - unfold h', h1. repeat (apply insert_subseteq_r; [done|]). reflexivity.
  - unfold stored_ranges. rewrite (bind_ok Hst).
    rewrite (bind_ok (get_prop_Some _ _ "ranges" (JRef a) _ Hs3
                        (lookup_singleton_eq _ _))).
    by rewrite (iterate_array _ _ _ _ Ha3).
  - unfold stored_inverted. rewrite (bind_ok Hst).
    rewrite (get_prop_None _ _ "inverted" _ Hs3); [done|].
    by apply lookup_singleton_ne.
Qed.

(** X11: constructing and copying never write to an object that exists
    already, whatever the argument and whether the call returns or
    throws: the heap before is contained in the heap after. *)
Theorem construction_keeps_existing_objects v h :
  h ⊆ (BooleanSet.new v h).2 ∧ h ⊆ (BooleanSet.copy v h).2.
Proof. split; apply new_ext. Qed.

(** ** getState() *)

(** X12: [getState()] hands out the state object itself: on a set with no
    stored range, writing a boolean [b] to the [inverted] of the object it
    returns makes [get(n)] return [b] at every index. *)
Theorem getState_exposes_the_state h t s a (b : bool) n :
  cleared_at h t s a →
  ∃ st h',
    BooleanSet.getState (JRef t) h = (Ok st, h) ∧
    set_prop st "inverted" (JBool b) h = (Ok (), h') ∧
    BooleanSet.get (JRef t) (index n) h' = (Ok (JBool b), h').
Proof.
  intros ((Hts & (pt & Ht & Hpt) & (ks & ps & Hs & Hps) & (xs & pa & Ha))
          & Hsa & _ & (pa' & Ha')).
  exists (JRef s). eexists. split; [|split].
  - unfold BooleanSet.getState. by apply (get_prop_Some _ _ _ _ _ Ht Hpt).
  - by apply (set_prop_lookup _ _ _ _ _ Hs).
  - cbn [kind_of props]. set (h' := <[s := _]> h).
    assert (h' !! s = Some (Object ks (<["inverted" := JBool b]> ps))) as Hs'
      by (unfold h'; by rewrite lookup_insert_eq).
    rewrite (get_run_empty (JRef t) (index n) (JRef s) (JRef a) h').
    + apply (get_prop_Some _ _ _ _ _ Hs'). cbn [props]. apply lookup_insert_eq.
    + apply index_ok_index.
    + apply (get_prop_Some _ (Object BooleanSetInstance pt)); [|done].
      unfold h'. by rewrite lookup_insert_ne.
    + apply (get_prop_Some _ _ _ _ _ Hs'). cbn [props].
      by rewrite lookup_insert_ne.
    + apply (iterate_array _ _ pa'). unfold h'. by rewrite lookup_insert_ne.
Qed.

(** ** The methods that never return *)

(** X13: [length()] on a live instance throws the ReferenceError of the
    unbound identifier [getLast], whatever [this.flipped] holds;
    [toArray] called without an end throws that same error, since the
    default value of its end is [this.length()], and called with an end
    it throws "Not implemented".  None of them writes. *)
Theorem length_and_toArray_throw t o start end_ h :
  h !! t = Some o →
  BooleanSet.length (JRef t) h = (Throw (ReferenceError "getLast"), h) ∧
  BooleanSet.toArray (JRef t) start undefined h =
    (Throw (ReferenceError "getLast"), h) ∧
  BooleanSet.toArray (JRef t) start end_ h =
    (Throw (if is_undefined end_ then ReferenceError "getLast"
            else Error "Not implemented"), h).
Proof.
  intros Ht.
  assert (BooleanSet.length (JRef t) h = (Throw (ReferenceError "getLast"), h))
    as Hlen.
  { unfold BooleanSet.length.
    rewrite (bind_ok (get_prop_lookup _ _ "flipped" _ Ht)).
    by destruct (truthy _). }
  split; [done|]. unfold BooleanSet.toArray. split.
  - cbn [is_undefined]. by rewrite (bind_throw Hlen).
  - destruct (is_undefined end_); [by rewrite (bind_throw Hlen)|].
    by rewrite (bind_ok (mret_run end_ h)).
Qed.


(** X15: [allSet] and [anySet] never return: they throw an AssertionError
    for a value that is not a boolean and otherwise the "Not implemented"
    of [getFirst], and write nothing. *)
Theorem allSet_and_anySet_throw this val start end_ h :
  BooleanSet.allSet this val start end_ h =
    (Throw (if is_boolean val then Error "Not implemented"
            else AssertionError), h) ∧
  BooleanSet.anySet this val start end_ h =
    (Throw (if is_boolean val then Error "Not implemented"
            else AssertionError), h).
Proof.
  unfold BooleanSet.allSet, BooleanSet.anySet.
  unfold BooleanSet.allSet_via, BooleanSet.anySet_via.
  by destruct (is_boolean val).
Qed.

(** ** What copy() copies *)

Lemma deep_copy_copied_as n v h v' h' :
  GenUtils.deep_copy n v h = (Ok v', h') → copied_as v v'.
Proof.
  intros Heq.
  destruct (deep_copy_run n v h) as (w & hh & Hrun & _ & _ & Hid & Hobj).
  rewrite Hrun in Heq. injection Heq as -> ->.
  destruct v as [| | | | |l]; cbn [copied_as];
    try (apply Hid; by intros (? & ? & [=] & _)).
  destruct n as [|n]; [injection Hrun as <- _; by exists l|].
  destruct (h !! l) as [o|] eqn:Hl.
  - destruct (Hobj l o) as (l' & _ & -> & _); [done..|]. by exists l'.
  - exists l. apply Hid. intros (? & ? & [= <-] & ?). congruence.
Qed.

Lemma copied_as_bool x (b : bool) : copied_as x (JBool b) → x = JBool b.
Proof. destruct x; cbn [copied_as]; try done. by intros [? [=]]. Qed.

Lemma copied_as_ref x l' : copied_as x (JRef l') → ∃ l, x = JRef l.
Proof. destruct x as [| | | | |l]; cbn [copied_as]; try done. by exists l. Qed.

(** [mapM] of a function that always returns and extends the heap, with
    the heaps each element was mapped between. *)
Lemma mapM_trace {A B} (f : A → M B) xs :
  (∀ a h, ∃ b h', f a h = (Ok b, h') ∧ h ⊆ h') →
  ∀ h, ∃ bs h',
    mapM f xs h = (Ok bs, h') ∧ h ⊆ h' ∧
    Forall2 (λ a b, ∃ hi hi', h ⊆ hi ∧ f a hi = (Ok b, hi') ∧ hi' ⊆ h') xs bs.
Proof.
  intros Hf. induction xs as [|x xs IH]; intros h.
  - exists [], h. split; [reflexivity|]. split; [done|constructor].
  - destruct (Hf x h) as (b & h1 & Hb & Hh1).
    destruct (IH h1) as (bs & h2 & Hbs & Hh2 & HRs).
    exists (b :: bs), h2. split; [|split; [by etrans|]].
    { cbn [mapM]. by rewrite (bind_ok Hb), (bind_ok Hbs). }
    constructor; [by exists h, h1|].
    eapply Forall2_impl; [exact HRs|].
    intros a b' (hi & hi' & ? & ? & ?). exists hi, hi'.
    split; [by etrans|done].
Qed.

Lemma deep_copy_total n v h :
  ∃ v' h', GenUtils.deep_copy n v h = (Ok v', h') ∧ h ⊆ h'.
Proof.
  destruct (deep_copy_run n v h) as (v' & h' & Hrun & Hsub & _).
  by exists v', h'.
Qed.

(** The copy of a live object, with fuel: a new object of the same kind
    (an instance becomes a plain object) whose array elements are the
    copies of the elements, and each of whose properties is the copy of
    the property of that name. *)
Lemma deep_copy_object n l k ps h v' h' :
  h !! l = Some (Object k ps) →
  GenUtils.deep_copy (S n) (JRef l) h = (Ok v', h') →
  ∃ l' k' ps',
    v' = JRef l' ∧ h !! l' = None ∧ h ⊆ h' ∧
    h' !! l' = Some (Object k' ps') ∧
    match k with
    | Array elems => ∃ es, k' = Array es ∧ Forall2 copied_as elems es
    | _ => k' = Plain
    end ∧
    ∀ key x', ps' !! key = Some x' →
      ∃ x hi hi', ps !! key = Some x ∧ h ⊆ hi ∧
                  GenUtils.deep_copy n x hi = (Ok x', hi') ∧ hi' ⊆ h'.
Proof.
  intros Hl. cbn [GenUtils.deep_copy].
  rewrite (bind_ok (reads_run _ h)), Hl.
  assert (∃ k' h1,
    match k with
    | Array elems => es ← mapM (GenUtils.deep_copy n) elems; mret (Array es)
    | _ => mret Plain
    end h = (Ok k', h1) ∧ h ⊆ h1 ∧
    match k with
    | Array elems => ∃ es, k' = Array es ∧ Forall2 copied_as elems es
    | _ => k' = Plain
    end) as (k' & h1 & Hk & Hh1 & Hkind).
  { destruct k as [| |elems]; try (by exists Plain, h).
    destruct (mapM_trace (GenUtils.deep_copy n) elems (deep_copy_total n) h)
      as (es & h1 & Hes & Hh1 & HR).
    exists (Array es), h1. rewrite (bind_ok Hes).
    split; [reflexivity|]. split; [done|]. exists es. split; [done|].
    eapply Forall2_impl; [exact HR|].
    intros a b (hi & hi' & _ & Hab & _). by eapply deep_copy_copied_as. }
  rewrite (bind_ok Hk).
  destruct (mapM_trace
    (λ kv : string * value, x ← GenUtils.deep_copy n kv.2; mret (kv.1, x))
    (map_to_list ps)) with (h := h1) as (kvs & h2 & Hkvs & Hh2 & HR).
  { intros [key x] h0. cbn [fst snd].
    destruct (deep_copy_total n x h0) as (x' & h3 & Hx & Hh3).
    exists (key, x'), h3. by rewrite (bind_ok Hx). }
  rewrite (bind_ok Hkvs).
  destruct (alloc_run (Object k' (list_to_map kvs)) h2) as (l' & Hl' & Halloc).
  rewrite Halloc. intros [= <- <-].
  assert (h ⊆ h2) as Hhh2 by (by etrans).
  assert (h2 ⊆ <[l' := Object k' (list_to_map kvs)]> h2) as Hh3
    by (by apply insert_subseteq).
  exists l', k', (list_to_map kvs).
  split; [done|]. split; [by eapply lookup_weaken_None|].
  split; [by etrans|]. split; [apply lookup_insert_eq|]. split; [done|].
  intros key x' Hx. apply elem_of_list_to_map_2 in Hx.
  destruct (Forall2_elem_of_r _ _ _ _ HR Hx)
    as ([key0 x] & Hin & hi & hi' & Hhi & Hrun & Hhi').
  apply elem_of_map_to_list in Hin. cbn [fst snd] in Hrun.
  destruct (deep_copy_total n x hi) as (y & h3 & Hy & _).
  rewrite (bind_ok Hy) in Hrun.
  change ((Ok (key0, y), h3) = (Ok (key, x'), hi')) in Hrun.
  injection Hrun as -> <- <-.
  exists x, hi, h3. split; [done|]. split; [by trans h1|].
  split; [done|by trans h2].
Qed.

(** [get] on a set in shape whose first range can be read. *)
Lemma get_run_first this idx st rs x xs h :
  BooleanSet.index_ok idx h = (Ok true, h) →
  get_prop this "state" h = (Ok st, h) →
  get_prop st "ranges" h = (Ok rs, h) →
  iterate rs h = (Ok (x :: xs), h) →
  BooleanSet.get this idx h =
  (Throw (match (get_prop x "start" h).1 with
          | Ok _ => ReferenceError "index"
          | Throw e => e
          end), h).
Proof.
  intros Hidx Hst Hrs Hxs. unfold BooleanSet.get.
  rewrite (bind_ok Hidx), (bind_ok (assert_true h)).
  rewrite (bind_ok Hst), (bind_ok Hrs), (bind_ok Hxs).
  by rewrite (bind_throw (get_loop_first x xs false h)).
Qed.

Lemma get_bad_index this idx h :
  BooleanSet.index_ok idx h = (Ok false, h) →
  BooleanSet.get this idx h = (Throw AssertionError, h).
Proof.
  intros Hidx. unfold BooleanSet.get.
  by rewrite (bind_ok Hidx), (bind_throw (assert_false h)).
Qed.

(** What a successful [copy()] has copied: the original has a state object
    with the same boolean [inverted], and a range array whose elements
    the elements of the copy's array are copies of. *)
Lemma copy_Ok_original t pt h C h1 :
  closed h →
  h !! t = Some (Object BooleanSetInstance pt) →
  BooleanSet.copy (JRef t) h = (Ok C, h1) →
  ∃ c s' a' s a (b : bool) es elems,
    C = JRef c ∧ h ⊆ h1 ∧
    get_prop (JRef c) "state" h1 = (Ok (JRef s'), h1) ∧
    get_prop (JRef s') "ranges" h1 = (Ok (JRef a'), h1) ∧
    get_prop (JRef s') "inverted" h1 = (Ok (JBool b), h1) ∧
    iterate (JRef a') h1 = (Ok es, h1) ∧
    Forall (λ e', ∃ lo, get_prop e' "start" h1 = (Ok lo, h1)) es ∧
    get_prop (JRef t) "state" h = (Ok (JRef s), h) ∧
    get_prop (JRef s) "ranges" h = (Ok (JRef a), h) ∧
    get_prop (JRef s) "inverted" h = (Ok (JBool b), h) ∧
    iterate (JRef a) h = (Ok elems, h) ∧
    Forall2 copied_as elems es.
Proof.
  intros Hclosed Ht. unfold BooleanSet.copy, BooleanSet.new.
  destruct (alloc_run (Object BooleanSetInstance ∅) h) as (c & Hc & Halloc).
  rewrite (bind_ok Halloc). set (hc := <[c := _]> h).
  assert (h ⊆ hc) as Hsub by (by apply insert_subseteq).
  assert (hc !! c = Some (Object BooleanSetInstance ∅)) as Hcc
    by (unfold hc; by rewrite lookup_insert_eq).
  assert (hc !! t = Some (Object BooleanSetInstance pt)) as Htc
    by (by eapply lookup_weaken).
  unfold BooleanSet.constructor.
  rewrite bind_run, (bind_ok (reads_run _ hc)).
  cbn [instanceof_BooleanSet]. rewrite Htc. unfold BooleanSet.getState.
  rewrite (bind_ok (get_prop_lookup _ _ "state" _ Htc)). cbn [props].
  set (st := default undefined (pt !! "state")).
  destruct (deep_copy_run (S (size hc)) st hc)
    as (cp & hd & Hcopy & Hd & Hout & Hid & _).
  pose proof Hcopy as Hcopy'.
  change (GenUtils.copyProperties st hc = (Ok cp, hd)) in Hcopy'.
  rewrite (bind_ok Hcopy'), bind_run.
  assert (hd !! c = Some (Object BooleanSetInstance ∅)) as Hcd
    by (by eapply lookup_weaken).
  rewrite (setState_run c _ cp hd Hcd).
  destruct (BooleanSet._validateState cp hd) as [[[]|e] hv] eqn:Hval;
    [|discriminate].
  pose proof (validateState_heap cp hd) as Hhv. rewrite Hval in Hhv.
  cbn [snd] in Hhv. subst hv.
  apply validateState_Ok_inv in Hval
    as (s' & o' & b & a' & es & pa' & -> & Hs' & Hinv' & Hrs' & Ha' & Hes).
  cbn [kind_of props]. intros [= <- <-].
  (* the state of the original *)
  assert (∃ s, pt !! "state" = Some (JRef s)) as [s Hst].
  { destruct (pt !! "state") as [[| | | | |s]|] eqn:E;
      try (destruct Hid as [[=] _]; by intros (? & ? & [=] & _)).
    by exists s. }
  assert (st = JRef s) as Hsts by (unfold st; by rewrite Hst).
  clearbody st. subst st.
  destruct (Hclosed t _ Ht) as [Hpt _].
  destruct (Hpt "state" (JRef s) Hst) as [[ks ps] Hs].
  destruct (Hclosed s _ Hs) as [Hps _]. cbn [props] in Hps.
  assert (hc !! s = Some (Object ks ps)) as Hsc by (by eapply lookup_weaken).
  destruct (deep_copy_object _ _ _ _ _ _ _ Hsc Hcopy)
    as (l' & k' & ps' & [= <-] & Hs'c & _ & Hs'd & _ & Hprops).
  rewrite Hs' in Hs'd. injection Hs'd as ->. cbn [props] in Hinv', Hrs'.
  (* the flag *)
  destruct (Hprops _ _ Hinv') as (x & hi & hi' & Hinv & _ & Hx & _).
  apply deep_copy_copied_as, copied_as_bool in Hx. subst x.
  (* the range array *)
  destruct (Hprops _ _ Hrs') as (x & hj & hj' & Hrs & Hhi & Hx & Hhi').
  destruct (copied_as_ref x a') as [a ->]; [by eapply deep_copy_copied_as|].
  destruct (Hps "ranges" (JRef a) Hrs) as [[ka pa] Ha].
  assert (hj !! a = Some (Object ka pa)) as Hai.
  { eapply lookup_weaken; [exact Ha|]. by etrans. }
  assert (size hc ≠ 0%nat) as Hsize.
  { intros ->%map_size_empty_inv. by rewrite lookup_empty in Hcc. }
  destruct (size hc) as [|m]; [done|].
  destruct (deep_copy_object _ _ _ _ _ _ _ Hai Hx)
    as (l' & k'' & ps'' & [= <-] & Ha'i & _ & Ha'd & Hkind & _).
  eapply lookup_weaken in Ha'd; [|exact Hhi']. rewrite Ha' in Ha'd.
  injection Ha'd as <- <-.
  assert (∃ elems, ka = Array elems ∧ Forall2 copied_as elems es)
    as (elems & -> & Helems).
  { destruct ka as [| |elems]; try discriminate.
    destruct Hkind as (es0 & [= <-] & ?). by exists elems. }
  assert (c ≠ s') as Hcs' by congruence.
  assert (c ≠ a') as Hca'.
  { intros <-. eapply lookup_weaken in Hcc; [|exact Hhi]. congruence. }
  set (h1 := <[c := _]> (<[c := _]> hd)).
  assert (∀ l, is_Some (hd !! l) → is_Some (h1 !! l)) as Hdom.
  { intros l Hl. unfold h1. destruct (decide (l = c)) as [->|].
    - rewrite lookup_insert_eq. by eexists.
    - by rewrite !lookup_insert_ne. }
  exists c, s', a', s, a, b, es, elems.
  split; [done|]. split.
  { unfold h1. repeat (apply insert_subseteq_r; [done|]). by etrans. }
  split.
  { eapply get_prop_Some; [apply lookup_insert_eq|].
    cbn [props]. apply lookup_insert_eq. }
  assert (h1 !! s' = Some (Object k' ps')) as Hs'1
    by (unfold h1; by rewrite !lookup_insert_ne).
  split; [by apply (get_prop_Some _ _ _ _ _ Hs'1)|].
  split; [by apply (get_prop_Some _ _ _ _ _ Hs'1)|].
  split.
  { apply (iterate_array _ _ pa'). unfold h1. by rewrite !lookup_insert_ne. }
  split.
  { eapply Forall_impl; [exact Hes|].
    intros e' (lo & _ & Hlo & _).
    destruct e' as [| | | | |l]; try discriminate;
      try (by eexists).
    unfold get_prop in Hlo |- *.
    destruct (hd !! l) as [o|] eqn:E; [|discriminate].
    destruct (Hdom l) as [o1 ->]; [by rewrite E|]. by eexists. }
  split; [by apply (get_prop_Some _ _ _ _ _ Ht)|].
  split; [by apply (get_prop_Some _ _ _ _ _ Hs)|].
  split; [by apply (get_prop_Some _ _ _ _ _ Hs)|].
  split; [by apply (iterate_array _ _ pa)|done].
Qed.

(** X16: a copy answers like its original: on a closed heap, when
    [copy()] of a set returns, [get] on the copy answers at every index
    (valid or not) what [get] on the original answered, be it a value or
    an error. *)
Theorem copy_answers_like_original h this copied h1 idx :
  closed h →
  instanceof_BooleanSet h this = true →
  BooleanSet.copy this h = (Ok copied, h1) →
  (BooleanSet.get copied idx h1).1 = (BooleanSet.get this idx h).1.
Proof.
  intros Hclosed Hinst Hcopy.
  destruct this as [| | | | |t]; try discriminate.
  cbn [instanceof_BooleanSet] in Hinst.
  destruct (h !! t) as [[[] pt]|] eqn:Ht; try discriminate.
  destruct (copy_Ok_original t pt h copied h1 Hclosed Ht Hcopy)
    as (c & s' & a' & s & a & b & es & elems & -> & Hsub & Hst' & Hrs' & Hinv'
        & Hit' & Hes & Hst & Hrs & Hinv & Hit & Helems).
  destruct (index_ok_run idx h) as [ok Hok].
  destruct (index_ok_run idx h1) as [ok' Hok'].
  assert (ok' = ok) as ->.
  { pose proof (index_ok_weaken idx h h1) as Hw. rewrite Hok, Hok' in Hw.
    by injection Hw. }
  destruct ok; [|by rewrite !get_bad_index].
  destruct Helems as [|e e' elems es He Helems].
  - rewrite (get_run_empty _ _ _ _ _ Hok' Hst' Hrs' Hit').
    rewrite (get_run_empty _ _ _ _ _ Hok Hst Hrs Hit).
    by rewrite Hinv', Hinv.
  - rewrite (get_run_first _ _ _ _ _ _ _ Hok' Hst' Hrs' Hit').
    rewrite (get_run_first _ _ _ _ _ _ _ Hok Hst Hrs Hit). cbn [fst].
    apply Forall_cons in Hes as [[lo Hlo] _]. rewrite Hlo. cbn [fst].
    pose proof (iterate_live _ _ _ Hclosed Hit) as Hlive.
    apply Forall_cons in Hlive as [Hlive _].
    destruct e as [| | | | |l]; cbn [copied_as] in He; subst;
      try discriminate; try reflexivity.
    destruct Hlive as [o Hl]. unfold get_prop. by rewrite Hl.
Qed.

(** X17: what a successful [copy()] has copied: on a closed heap, when
    [copy()] of a set returns, the original holds a boolean [inverted] and
    an iterable range collection, the copy holds the same boolean, and
    its range collection has as many elements, each a copy of the
    original's (a primitive is kept, a reference becomes a reference). *)
Theorem copy_keeps_flag_and_ranges h this copied h1 :
  closed h →
  instanceof_BooleanSet h this = true →
  BooleanSet.copy this h = (Ok copied, h1) →
  ∃ (b : bool) xs xs',
    stored_inverted h this = Some (JBool b) ∧
    stored_inverted h1 copied = Some (JBool b) ∧
    stored_ranges h this = Some xs ∧
    stored_ranges h1 copied = Some xs' ∧
    Forall2 copied_as xs xs'.
Proof.
  intros Hclosed Hinst Hcopy.
  destruct this as [| | | | |t]; try discriminate.
  cbn [instanceof_BooleanSet] in Hinst.
  destruct (h !! t) as [[[] pt]|] eqn:Ht; try discriminate.
  destruct (copy_Ok_original t pt h copied h1 Hclosed Ht Hcopy)
    as (c & s' & a' & s & a & b & es & elems & -> & Hsub & Hst' & Hrs' & Hinv'
        & Hit' & Hes & Hst & Hrs & Hinv & Hit & Helems).
  exists b, elems, es. unfold stored_inverted, stored_ranges.
  split; [by rewrite (bind_ok Hst), Hinv|].
  split; [by rewrite (bind_ok Hst'), Hinv'|].
  split; [by rewrite (bind_ok Hst), (bind_ok Hrs), Hit|].
  split; [by rewrite (bind_ok Hst'), (bind_ok Hrs'), Hit'|done].
Qed.

(** ** set(val) is not all or nothing *)

(** X18: [set(val)] deletes [state.inverted] before it touches the range
    collection: on a set whose state object has no [ranges], the call
    throws a TypeError and the state object has lost its [inverted]
    all the same. *)
Theorem set_all_fails_after_deleting h t o s ks ps (b : bool) idx :
  is_nullish idx = true →
  h !! t = Some o →
  props o !! "state" = Some (JRef s) →
  t ≠ s →
  h !! s = Some (Object ks ps) →
  ps !! "ranges" = None →
  BooleanSet.set (JRef t) (JBool b) idx h =
  (Throw TypeError, <[s := Object ks (delete "inverted" ps)]> h).
Proof.
  intros Hidx Ht Hst Hts Hs Hrs. unfold BooleanSet.set. cbn [is_boolean].
  rewrite (bind_ok (assert_true h)), Hidx.
  rewrite (bind_ok (get_prop_Some _ _ _ _ _ Ht Hst)).
  rewrite (bind_ok (delete_prop_lookup _ _ _ _ Hs)). cbn [kind_of props].
  set (h1 := <[s := _]> h).
  assert (h1 !! t = Some o) as Ht1 by (unfold h1; by rewrite lookup_insert_ne).
  assert (h1 !! s = Some (Object ks (delete "inverted" ps))) as Hs1
    by (unfold h1; by rewrite lookup_insert_eq).
  rewrite (bind_ok (get_prop_Some _ _ _ _ _ Ht1 Hst)).
  rewrite (bind_ok (get_prop_None _ _ "ranges" _ Hs1
                      ltac:(cbn [props]; by rewrite lookup_delete_ne))).
  reflexivity.
Qed.

End Properties.

(** * Examples *)

#[local] Existing Instance plain_builtins.

(** C7 at work: [get(-1)] on the set of [inverted_heap]. *)
Lemma invalid_argument_rejected_witness :
  ∃ e, invoke (JRef 0%nat) (CallGet (num_of_Z (-1))) inverted_heap =
       (Throw e, inverted_heap).
Proof.
  apply (invalid_argument_rejected (JRef 0%nat) (CallGet (num_of_Z (-1)))
           inverted_heap).
  reflexivity.
Defined.

(** C9 at work: [get(7)] on the set of [one_range_heap]. *)
Lemma get_throws_unless_empty_witness :
  ([JRef 3%nat] ≠ [] →
     ∃ e, (e = TypeError ∨ e = ReferenceError "index") ∧
          BooleanSet.get (JRef 0%nat) (index 7) one_range_heap =
          (Throw e, one_range_heap)) ∧
  (∀ v h', BooleanSet.get (JRef 0%nat) (index 7) one_range_heap = (Ok v, h') →
     [JRef 3%nat] = [] ∧ stored_inverted one_range_heap (JRef 0%nat) = Some v ∧
     h' = one_range_heap).
Proof.
  apply (get_throws_unless_empty (JRef 0%nat) (index 7) [JRef 3%nat]
           one_range_heap).
  - vm_compute. reflexivity.
  - vm_compute. reflexivity.
Defined.

(** What [get(7)] throws there. *)
Example get_one_range_heap :
  BooleanSet.get (JRef 0%nat) (index 7) one_range_heap =
  (Throw (ReferenceError "index"), one_range_heap).
Proof. vm_compute. reflexivity. Qed.

Lemma inverted_heap_closed : closed inverted_heap.
Proof. apply (bool_decide_unpack _). vm_compute. exact I. Qed.

(** C6 at work: the set of [inverted_heap] is copied, the copy is set to
    false, cleared and copied again; [get(3)] on the original is not
    affected. *)
Lemma copy_independent_witness :
  (BooleanSet.get (JRef 0%nat) (index 3)
     (run_calls (JRef 3%nat)
        [CallSet (JBool false) undefined; CallClear; CallCopy]
        (BooleanSet.copy (JRef 0%nat) inverted_heap).2)).1 =
  (BooleanSet.get (JRef 0%nat) (index 3)
     (BooleanSet.copy (JRef 0%nat) inverted_heap).2).1.
Proof.
  apply (copy_independent inverted_heap (JRef 0%nat) (JRef 3%nat)).
  - exact inverted_heap_closed.
  - reflexivity.
  - vm_compute. reflexivity.
Defined.

(** What the witness of C6 compares: the original answers true before and
    after, while the copy, once cleared, answers [undefined]. *)
Example copy_independent_values :
  let h1 := (BooleanSet.copy (JRef 0%nat) inverted_heap).2 in
  let h2 := run_calls (JRef 3%nat)
              [CallSet (JBool false) undefined; CallClear; CallCopy] h1 in
  (BooleanSet.get (JRef 0%nat) (index 3) h2).1 = Ok (JBool true) ∧
  (BooleanSet.get (JRef 3%nat) (index 3) h1).1 = Ok (JBool true) ∧
  (BooleanSet.get (JRef 3%nat) (index 3) h2).1 = Ok undefined.
Proof. vm_compute. repeat split; reflexivity. Qed.

(** Sharing is observable in this model: when two instances hold the same
    state object, clearing one changes what the other answers.  This is what
    the deep copy of [copy()] rules out. *)
Example shared_state_is_observed :
  (BooleanSet.get (JRef 0%nat) (index 3) shared_heap).1 = Ok (JBool true) ∧
  (BooleanSet.get (JRef 0%nat) (index 3)
     (run_calls (JRef 3%nat) [CallClear] shared_heap)).1 = Ok undefined.
Proof. vm_compute. split; reflexivity. Qed.

(** C8 refuted as stated: the ranges [[0, 5]] and [[3, 8]] of [overlap_heap]
    overlap, so the collection violates the invariant of the specification,
    and state validation accepts the state. *)
Lemma validateState_accepts_overlap :
  intervals_of overlap_heap (JRef 0%nat) = Some [(0, Some 5); (3, Some 8)] ∧
  spec_range_collection_ok [(0, Some 5); (3, Some 8)] = false ∧
  BooleanSet._validateState (JRef 0%nat) overlap_heap = (Ok (), overlap_heap).
Proof. vm_compute. repeat split; reflexivity. Qed.

(** Unsorted ranges and unbounded ranges that are repeated and not last are
    accepted as well. *)
Example validateState_accepts_unbounded :
  intervals_of unbounded_heap (JRef 0%nat) =
    Some [(7, None); (7, None); (2, Some 6)] ∧
  spec_range_collection_ok [(7, None); (7, None); (2, Some 6)] = false ∧
  BooleanSet._validateState (JRef 0%nat) unbounded_heap = (Ok (), unbounded_heap).
Proof. vm_compute. repeat split; reflexivity. Qed.

(** A range with a negative bound is what validation does reject. *)
Example validateState_rejects_negative :
  BooleanSet._validateState (JRef 0%nat)
    (<[2%nat := range_object (num_of_Z (-1)) (num_of_Z 5)]> overlap_heap) =
  (Throw AssertionError,
   <[2%nat := range_object (num_of_Z (-1)) (num_of_Z 5)]> overlap_heap).
Proof. vm_compute. reflexivity. Qed.

(** The constructor given that same state object: it throws before
    validating anything. *)
Example new_from_state_object :
  (BooleanSet.new (JRef 0%nat) overlap_heap).1 = Throw (ReferenceError "state").
Proof. vm_compute. reflexivity. Qed.

(** * The extra properties at work *)

Lemma one_range_heap_set_at : set_at one_range_heap 0%nat 1%nat 2%nat.
Proof.
  split; [done|]. split; [|split].
  - eexists. split; reflexivity.
  - eexists _, _. split; reflexivity.
  - eexists _, _. reflexivity.
Qed.

Lemma cleared_heap_cleared_at : cleared_at cleared_heap 0%nat 1%nat 2%nat.
Proof.
  split; [|split; [done|split]].
  - split; [done|]. split; [|split].
    + eexists. split; reflexivity.
    + eexists _, _. split; reflexivity.
    + eexists _, _. reflexivity.
  - eexists _, _. split; reflexivity.
  - eexists. reflexivity.
Qed.

(** [clear()] on the set of [one_range_heap], which holds the range
    [[5, 10]] and [inverted] false. *)
Lemma clear_resets_to_undefined_witness :
  ∃ h',
    BooleanSet.clear (JRef 0%nat) one_range_heap = (Ok undefined, h') ∧
    stored_ranges h' (JRef 0%nat) = Some [] ∧
    stored_inverted h' (JRef 0%nat) = Some undefined ∧
    ∀ n, BooleanSet.get (JRef 0%nat) (index n) h' = (Ok undefined, h').
Proof.
  apply (clear_resets_to_undefined one_range_heap 0%nat 1%nat 2%nat).
  exact one_range_heap_set_at.
Defined.

(** [set(true)] twice on the set of [one_range_heap]. *)
Lemma set_all_idempotent_witness :
  BooleanSet.set (JRef 0%nat) (JBool true) null
    (BooleanSet.set (JRef 0%nat) (JBool true) undefined one_range_heap).2 =
  (Ok undefined,
   (BooleanSet.set (JRef 0%nat) (JBool true) undefined one_range_heap).2).
Proof.
  apply (set_all_idempotent one_range_heap 0%nat 1%nat 2%nat true undefined null).
  - exact one_range_heap_set_at.
  - done.
  - reflexivity.
  - reflexivity.
Defined.

(** [flipRange(1, 4)] on the set of [inverted_heap] writes nothing. *)
Lemma only_set_clear_copy_write_witness :
  (invoke (JRef 0%nat) (CallFlipRange (index 1) (index 4)) inverted_heap).2 =
  inverted_heap.
Proof.
  apply (only_set_clear_copy_write (JRef 0%nat)
           (CallFlipRange (index 1) (index 4)) inverted_heap).
  reflexivity.
Defined.

(** After [set(true)] on the set of [one_range_heap], neither [set(false)]
    nor [clear()] nor a rejected [get] takes the instance's own [inverted]
    back. *)
Lemma set_true_flag_is_never_reset_witness :
  let calls := [CallSet (JBool false) undefined; CallClear;
                CallGet (num_of_Z (-1))] in
  let h1 := (BooleanSet.set (JRef 0%nat) (JBool true) undefined
               one_range_heap).2 in
  get_prop (JRef 0%nat) "inverted" (run_calls (JRef 0%nat) calls h1) =
  (Ok (JBool true), run_calls (JRef 0%nat) calls h1).
Proof.
  apply (set_true_flag_is_never_reset one_range_heap 0%nat 1%nat 2%nat).
  exact one_range_heap_set_at.
Defined.

(** [_setState] on the instance of [cleared_heap], given the state object of
    the instance itself. *)
Lemma setState_all_or_nothing_witness :
  match BooleanSet._validateState (JRef 1%nat) cleared_heap with
  | (Ok _, _) =>
      ∃ h', BooleanSet._setState (JRef 0%nat) (JRef 1%nat) cleared_heap =
              (Ok (JRef 0%nat), h') ∧
            BooleanSet.getState (JRef 0%nat) h' = (Ok (JRef 1%nat), h') ∧
            ∀ l, l ≠ 0%nat → h' !! l = cleared_heap !! l
  | (Throw e, _) =>
      BooleanSet._setState (JRef 0%nat) (JRef 1%nat) cleared_heap =
      (Throw e, cleared_heap)
  end.
Proof.
  apply (setState_all_or_nothing 0%nat
           (Object BooleanSetInstance {["state" := JRef 1%nat]})
           (JRef 1%nat) cleared_heap).
  reflexivity.
Defined.

(** The constructor given the state object of [inverted_heap]. *)
Lemma constructor_with_state_throws_witness :
  ∃ h', BooleanSet.new (JRef 1%nat) inverted_heap =
          (Throw (ReferenceError "state"), h') ∧
        inverted_heap ⊆ h'.
Proof.
  apply (constructor_with_state_throws (JRef 1%nat) inverted_heap).
  - by eexists.
  - reflexivity.
  - reflexivity.
Defined.

(** The constructor given the number 0. *)
Lemma constructor_with_falsy_argument_witness :
  ∃ t h',
    BooleanSet.new (num_of_Z 0) inverted_heap = (Ok (JRef t), h') ∧
    inverted_heap !! t = None ∧ inverted_heap ⊆ h' ∧
    stored_ranges h' (JRef t) = Some [] ∧
    stored_inverted h' (JRef t) = Some undefined.
Proof.
  apply (constructor_with_falsy_argument (num_of_Z 0) inverted_heap).
  reflexivity.
Defined.

(** Writing [inverted] through [getState()] on the set of [cleared_heap]. *)
Lemma getState_exposes_the_state_witness :
  ∃ st h',
    BooleanSet.getState (JRef 0%nat) cleared_heap = (Ok st, cleared_heap) ∧
    set_prop st "inverted" (JBool true) cleared_heap = (Ok (), h') ∧
    BooleanSet.get (JRef 0%nat) (index 4) h' = (Ok (JBool true), h').
Proof.
  apply (getState_exposes_the_state cleared_heap 0%nat 1%nat 2%nat true 4%nat).
  exact cleared_heap_cleared_at.
Defined.

(** [length()], [toArray()] and [toArray(undefined, 5)] on the set of
    [inverted_heap]. *)
Lemma length_and_toArray_throw_witness :
  BooleanSet.length (JRef 0%nat) inverted_heap =
    (Throw (ReferenceError "getLast"), inverted_heap) ∧
  BooleanSet.toArray (JRef 0%nat) undefined undefined inverted_heap =
    (Throw (ReferenceError "getLast"), inverted_heap) ∧
  BooleanSet.toArray (JRef 0%nat) undefined (index 5) inverted_heap =
    (Throw (if is_undefined (index 5) then ReferenceError "getLast"
            else Error "Not implemented"), inverted_heap).
Proof.
  apply (length_and_toArray_throw 0%nat
           (Object BooleanSetInstance {["state" := JRef 1%nat]})
           undefined (index 5) inverted_heap).
  reflexivity.
Defined.


(** The copy of the set of [inverted_heap] answers [get(3)] like the
    original. *)
Lemma copy_answers_like_original_witness :
  (BooleanSet.get (JRef 3%nat) (index 3)
     (BooleanSet.copy (JRef 0%nat) inverted_heap).2).1 =
  (BooleanSet.get (JRef 0%nat) (index 3) inverted_heap).1.
Proof.
  apply (copy_answers_like_original inverted_heap (JRef 0%nat) (JRef 3%nat)).
  - exact inverted_heap_closed.
  - reflexivity.
  - vm_compute. reflexivity.
Defined.

(** The copy of the set of [inverted_heap] holds its flag and its (empty)
    range collection. *)
Lemma copy_keeps_flag_and_ranges_witness :
  ∃ (b : bool) xs xs',
    stored_inverted inverted_heap (JRef 0%nat) = Some (JBool b) ∧
    stored_inverted (BooleanSet.copy (JRef 0%nat) inverted_heap).2
      (JRef 3%nat) = Some (JBool b) ∧
    stored_ranges inverted_heap (JRef 0%nat) = Some xs ∧
    stored_ranges (BooleanSet.copy (JRef 0%nat) inverted_heap).2
      (JRef 3%nat) = Some xs' ∧
    Forall2 copied_as xs xs'.
Proof.
  apply (copy_keeps_flag_and_ranges inverted_heap (JRef 0%nat) (JRef 3%nat)).
  - exact inverted_heap_closed.
  - reflexivity.
  - vm_compute. reflexivity.
Defined.

(** What the two witnesses of [copy()] compare: the flag is true on both
    sides, and so is [get(3)]. *)
Example copy_of_inverted_heap_values :
  let h1 := (BooleanSet.copy (JRef 0%nat) inverted_heap).2 in
  (BooleanSet.get (JRef 3%nat) (index 3) h1).1 = Ok (JBool true) ∧
  stored_inverted h1 (JRef 3%nat) = Some (JBool true) ∧
  stored_ranges h1 (JRef 3%nat) = Some [].
Proof. vm_compute. repeat split; reflexivity. Qed.

(** [set(false)] on the set of [no_ranges_heap]: the call fails and
    [inverted] is gone. *)
Lemma set_all_fails_after_deleting_witness :
  BooleanSet.set (JRef 0%nat) (JBool false) undefined no_ranges_heap =
  (Throw TypeError,
   <[1%nat := Object Plain (delete "inverted" {["inverted" := JBool true]})]>
     no_ranges_heap).
Proof.
  apply (set_all_fails_after_deleting no_ranges_heap 0%nat
           (Object BooleanSetInstance {["state" := JRef 1%nat]}) 1%nat
           Plain {["inverted" := JBool true]} false undefined).
  - reflexivity.
  - reflexivity.
  - reflexivity.
  - done.
  - reflexivity.
  - reflexivity.
Defined.
